(** * fairpy.indivisible.allocations: allocations of items among agents

    A shallow embedding of [src/indivisible/allocations.py] and the
    properties of its validator, its valuation functions, its bundle
    formatter and its two containers.

    Conventions of the embedding.
    - A Python [dict] is an association list in insertion order; [.keys()]
      and [.values()] enumerate it in that order and [len] is its length.
      The source never looks a key up: it only enumerates.
    - The numbers of a fraction map and of an agent's values are Python's
      [int] and [float]: an [int] is an integer of any size with exact
      arithmetic, a [float] is an IEEE 754 binary64 number with its
      rounding, its infinities and its NaN.  An operation on an [int] and
      a [float] first converts the [int], which raises [OverflowError]
      when the [int] is too large.
    - The values an agent of an [Allocation] gives to bundles come from
      the agent capability, which is not among the sources; they are
      taken as rationals.
    - [print] appends a line to an output log which the model returns next
      to the value.
    - A Python exception is the [Raise] case of [result]. *)

From Stdlib Require Import List String Ascii Bool Arith NArith ZArith Lia.
From Stdlib Require Import QArith Qfield.
From Stdlib Require Import Floats.
From Stdlib Require Import Permutation Sorted Mergesort Orders.
Import ListNotations.

Set Warnings "-inexact-float".

Local Open Scope Q_scope.

(** ** Exceptions and the error monad *)

Inductive exn : Type :=
| IndexError
| TypeError
| OverflowError.

Inductive result (A : Type) : Type :=
| Ok (a : A)
| Raise (e : exn).

Arguments Ok {A} a.
Arguments Raise {A} e.

Definition bind {A B : Type} (r : result A) (k : A -> result B) : result B :=
  match r with
  | Ok a => k a
  | Raise e => Raise e
  end.

Notation "x <- r ;; k" := (bind r (fun x => k))
  (at level 61, r at next level, right associativity).

(** ** Python numbers *)

Inductive number : Type :=
| PyInt (z : Z)
| PyFloat (f : float).

(** [float(z)] for an [int]: the nearest binary64 number, ties to even;
    [OverflowError] ("int too large to convert to float") when that is
    not finite. *)
Definition float_of_int (z : Z) : result float :=
  match binary_normalize prec emax z 0 false with
  | S754_infinity _ => Raise OverflowError
  | sf => Ok (SF2Prim sf)
  end.

(** [a + b] *)
Definition py_add (a b : number) : result number :=
  match a, b with
  | PyInt x, PyInt y => Ok (PyInt (x + y))
  | PyFloat x, PyFloat y => Ok (PyFloat (x + y))
  | PyInt x, PyFloat y => x' <- float_of_int x ;; Ok (PyFloat (x' + y))
  | PyFloat x, PyInt y => y' <- float_of_int y ;; Ok (PyFloat (x + y'))
  end.

(** [a * b] *)
Definition py_mul (a b : number) : result number :=
  match a, b with
  | PyInt x, PyInt y => Ok (PyInt (x * y))
  | PyFloat x, PyFloat y => Ok (PyFloat (x * y))
  | PyInt x, PyFloat y => x' <- float_of_int x ;; Ok (PyFloat (x' * y))
  | PyFloat x, PyInt y => y' <- float_of_int y ;; Ok (PyFloat (x * y'))
  end.

(** The comparisons of the source; each is against the [int] 0 or 1, which
    a [float] is compared with as with 0.0 or 1.0.  A comparison with NaN
    is [False]. *)

(** [v > 1] *)
Definition gt_one (v : number) : bool :=
  match v with
  | PyInt z => (1 <? z)%Z
  | PyFloat f => (1 <? f)%float
  end.

(** [v < 0] *)
Definition lt_zero (v : number) : bool :=
  match v with
  | PyInt z => (z <? 0)%Z
  | PyFloat f => (f <? 0)%float
  end.

(** [v > 0] *)
Definition gt_zero (v : number) : bool :=
  match v with
  | PyInt z => (0 <? z)%Z
  | PyFloat f => (0 <? f)%float
  end.

(** [s == 0] *)
Definition eq_zero (s : number) : bool :=
  match s with
  | PyInt z => (z =? 0)%Z
  | PyFloat f => (f =? 0)%float
  end.

(** ** Dictionaries *)

Definition dict (V : Type) : Type := list (string * V).

Definition keys {V : Type} (d : dict V) : list string := map fst d.
Definition values {V : Type} (d : dict V) : list V := map snd d.

(** A fraction map: item -> share. *)
Definition FractionMap : Type := dict number.

(** ** The diagnostics printed by the module *)

Definition msg_agent_count_mismatch : string :=
  "The amount of agents differs from the dictionaries that represent how much each agent received from each item."%string.
Definition msg_out_of_range_share : string :=
  "The values of the fractional allocation of items are not between 0 and 1"%string.
Definition msg_over_allocated_item : string :=
  "There is an item whose sum of parts is greater than 1"%string.
Definition msg_unclaimed_item : string :=
  "There is an item that has not been assigned to any agent"%string.
Definition msg_invalid_input : string := "Invalid input."%string.

(** ** check_input *)

(** The state of a loop of [check_input]: the loop goes on with the
    running sums, or the function has returned (with its printed line), or
    an exception has left it. *)
Inductive flow : Type :=
| Continue (sum_value_list : list number)
| Return (b : bool) (out : list string)
| Throw (e : exn).

(** [sum_value_list[j] += v].  The index always comes from
    [range(len(sum_value_list))], so it is in range (see
    [zip_range_in_range]); out of range the list is left as it is. *)
Fixpoint add_at (j : nat) (v : number) (sum_value_list : list number)
  : result (list number) :=
  match sum_value_list, j with
  | [], _ => Ok []
  | s :: rest, O => s' <- py_add s v ;; Ok (s' :: rest)
  | s :: rest, S j' => rest' <- add_at j' v rest ;; Ok (s :: rest')
  end.

(** [zip(d.values(), range(n))] *)
Definition zip_range (vs : list number) (n : nat) : list (number * nat) :=
  combine vs (seq 0 n).

(** The inner loop, lines 208-212: over the pairs [(v, j)].  The addition
    of line 209 comes before the test of line 210. *)
Fixpoint inner_loop (pairs : list (number * nat)) (sum_value_list : list number)
  : flow :=
  match pairs with
  | [] => Continue sum_value_list
  | (v, j) :: rest =>
      match add_at j v sum_value_list with
      | Raise e => Throw e
      | Ok sum_value_list' =>
          if gt_one v || lt_zero v
          then Return false [msg_out_of_range_share]
          else inner_loop rest sum_value_list'
      end
  end.

(** The outer loop, line 207: over the agents' maps, in order. *)
Fixpoint outer_loop (maps : list FractionMap) (sum_value_list : list number)
  : flow :=
  match maps with
  | [] => Continue sum_value_list
  | m :: rest =>
      match inner_loop (zip_range (values m) (List.length sum_value_list))
                       sum_value_list with
      | Continue sum_value_list' => outer_loop rest sum_value_list'
      | Return b out => Return b out
      | Throw e => Throw e
      end
  end.

(** The second loop, lines 214-221: over the positions [k], ascending. *)
Fixpoint sum_loop (sum_value_list : list number) : bool * list string :=
  match sum_value_list with
  | [] => (true, [])
  | s :: rest =>
      if gt_one s then (false, [msg_over_allocated_item])
      else if eq_zero s then (false, [msg_unclaimed_item])
      else sum_loop rest
  end.

(** [check_input]: [map_item_to_fraction[0]] raises [IndexError] on the
    empty list. *)
Definition check_input (map_item_to_fraction : list FractionMap)
  : result (bool * list string) :=
  match map_item_to_fraction with
  | [] => Raise IndexError
  | first :: _ =>
      let sum_value_list := repeat (PyInt 0) (List.length first) in
      match outer_loop map_item_to_fraction sum_value_list with
      | Return b out => Ok (b, out)
      | Continue sum_value_list' => Ok (sum_loop sum_value_list')
      | Throw e => Raise e
      end
  end.

(** ** get_items_of_agent_in_alloc and get_value_of_agent_in_alloc *)

Definition get_items_of_agent_in_alloc (map_item_to_fraction : FractionMap)
  : list string :=
  map fst (filter (fun kv => gt_zero (snd kv))
                  (combine (keys map_item_to_fraction) (values map_item_to_fraction))).

(** The loop of lines 249-250 over [zip(values, values)], [value += v1*v2]:
    the product first, then the sum. *)
Fixpoint value_loop (pairs : list (number * number)) (value : number)
  : result number :=
  match pairs with
  | [] => Ok value
  | (v1, v2) :: rest =>
      p <- py_mul v1 v2 ;;
      value' <- py_add value p ;;
      value_loop rest value'
  end.

Definition get_value_of_agent_in_alloc
  (value_of_the_whole_items : dict number) (amount_of_the_items : FractionMap)
  : result number :=
  value_loop (combine (values value_of_the_whole_items) (values amount_of_the_items))
             (PyInt 0).

(** ** stringify_bundle *)

(** The order of Python's [str]: lexicographic on code points, which on
    UTF-8 bytes is the byte-wise lexicographic order [String.leb]. *)
Module StringOrder <: TotalLeBool.
Definition t : Type := string.
Definition leb : t -> t -> bool := String.leb.
Theorem leb_total : forall a1 a2, leb a1 a2 = true \/ leb a2 a1 = true.
Proof. exact String.leb_total. Qed.
End StringOrder.

Module StringSort := Sort StringOrder.

(** [sorted(bundle)]: Python's sort is a stable merge sort; so is this
    one.  A bundle is a set; the list is one enumeration of it. *)
Definition sorted (bundle : list string) : list string := StringSort.sort bundle.

Definition stringify_bundle (bundle : list string) : string :=
  ("{" ++ String.concat "," (sorted bundle) ++ "}")%string.

(** ** Agents *)

(** Modelled from the spec: [AdditiveAgent] of [fairpy.indivisible.agents],
    which this module imports and which is not among the sources.  The
    module uses two things of an agent: [name()], a string, and the raw
    dataset [map_good_to_value], item -> value. *)
Record AdditiveAgent : Type := mkAdditiveAgent {
  name : string;
  map_good_to_value : dict number
}.

(** ** FractionalAllocation *)

(** The two fields of the object; [None] is Python's [None]. *)
Record FractionalAllocation : Type := mkFractionalAllocation {
  agents : option (list AdditiveAgent);
  map_item_to_fraction : option (list FractionMap)
}.

(** The state both failure branches of the constructor leave. *)
Definition sentinel : FractionalAllocation :=
  mkFractionalAllocation None None.

(** [__init__], lines 138-149.  The value is the object and the lines
    printed while it was built. *)
Definition FractionalAllocation_init
  (ags : list AdditiveAgent) (maps : list FractionMap)
  : result (FractionalAllocation * list string) :=
  if negb (List.length ags =? List.length maps)%nat then
    Ok (sentinel, [msg_agent_count_mismatch])
  else
    checked <- check_input maps ;;
    let '(valid, out) := checked in
    if valid then Ok (mkFractionalAllocation (Some ags) (Some maps), out)
    else Ok (sentinel, out ++ [msg_invalid_input]).

(** [enumerate(l)] *)
Definition enumerate {A : Type} (l : list A) : list (nat * A) :=
  combine (seq 0 (List.length l)) l.

(** [field[i]] on a field that may be [None]. *)
Definition subscript {A : Type} (field : option (list A)) (i : nat) : result A :=
  match field with
  | None => Raise TypeError
  | Some l =>
      match nth_error l i with
      | Some a => Ok a
      | None => Raise IndexError
      end
  end.

(** The loop of lines 154-156. *)
Fixpoint social_loop (self : FractionalAllocation)
  (pairs : list (nat * AdditiveAgent)) (acc : number) : result number :=
  match pairs with
  | [] => Ok acc
  | (i_agent, _) :: rest =>
      a <- subscript (agents self) i_agent ;;
      m <- subscript (map_item_to_fraction self) i_agent ;;
      agent_value <- get_value_of_agent_in_alloc (map_good_to_value a) m ;;
      acc' <- py_add acc agent_value ;;
      social_loop self rest acc'
  end.

(** [value_of_fractional_allocation], lines 152-157: [enumerate(None)]
    raises [TypeError]. *)
Definition value_of_fractional_allocation (self : FractionalAllocation)
  : result number :=
  match agents self with
  | None => Raise TypeError
  | Some ags => social_loop self (enumerate ags) (PyInt 0)
  end.

Definition newline : string := String (ascii_of_nat 10) EmptyString.

Section Rendering.

(** How [str.format] renders a number: a builtin of Python, left open. *)
Variable str_of_number : number -> string.

(** The loop of lines 165-168. *)
Fixpoint repr_loop (self : FractionalAllocation)
  (pairs : list (nat * AdditiveAgent)) (acc : string) : result string :=
  match pairs with
  | [] => Ok acc
  | (i_agent, agent) :: rest =>
      m <- subscript (map_item_to_fraction self) i_agent ;;
      let agent_bundle := stringify_bundle (get_items_of_agent_in_alloc m) in
      a <- subscript (agents self) i_agent ;;
      m' <- subscript (map_item_to_fraction self) i_agent ;;
      agent_value <- get_value_of_agent_in_alloc (map_good_to_value a) m' ;;
      repr_loop self rest
        (acc ++ name agent ++ "'s bundle: " ++ agent_bundle
             ++ ",  value: " ++ str_of_number agent_value ++ newline)%string
  end.

(** [__repr__], lines 160-169. *)
Definition FractionalAllocation_repr (self : FractionalAllocation) : result string :=
  match agents self, map_item_to_fraction self with
  | None, None => Ok ""%string
  | None, Some _ => Raise TypeError
  | Some ags, _ => repr_loop self (enumerate ags) ""%string
  end.

End Rendering.

(** ** Allocation *)

(** A bundle slot of an [Allocation]: a bundle, or [None] before it is
    set. *)
Definition Bundle : Type := list string.

(** Python's list index: [i] in [-n, n), a negative [i] counting from the
    end; outside that interval [IndexError]. *)
Definition py_index (n : nat) (i : Z) : result nat :=
  if (0 <=? i)%Z then
    if (i <? Z.of_nat n)%Z then Ok (Z.to_nat i) else Raise IndexError
  else
    if (- Z.of_nat n <=? i)%Z then Ok (Z.to_nat (Z.of_nat n + i))
    else Raise IndexError.

(** [l[j] = a] at a position already resolved. *)
Fixpoint replace_at {A : Type} (j : nat) (a : A) (l : list A) : list A :=
  match l, j with
  | [], _ => []
  | _ :: rest, O => a :: rest
  | x :: rest, S j' => x :: replace_at j' a rest
  end.

(** [l[i]] *)
Definition list_get {A : Type} (l : list A) (i : Z) : result A :=
  j <- py_index (List.length l) i ;;
  match nth_error l j with
  | Some a => Ok a
  | None => Raise IndexError
  end.

(** [l[i] = a] *)
Definition list_set {A : Type} (l : list A) (i : Z) (a : A) : result (list A) :=
  j <- py_index (List.length l) i ;;
  Ok (replace_at j a l).

(** A list comprehension whose body may raise: the first exception, in
    list order, ends it. *)
Fixpoint comprehension {A B : Type} (f : A -> result B) (l : list A)
  : result (list B) :=
  match l with
  | [] => Ok []
  | x :: rest =>
      y <- f x ;;
      ys <- comprehension f rest ;;
      Ok (y :: ys)
  end.

(** [stringify_bundle] on a slot: [sorted(None)] raises [TypeError]. *)
Definition stringify_slot (slot : option Bundle) : result string :=
  match slot with
  | None => Raise TypeError
  | Some bundle => Ok (stringify_bundle bundle)
  end.

Module Allocation.

Section WithAgent.

(** The [Agent] capability the class consumes; the class of agents is
    imported and not among the sources, so it is left open: [name()] and
    [value(bundle)], which may raise, also on [None]. *)
Variable Agent : Type.
Variable agent_name : Agent -> string.
Variable agent_value : Agent -> option Bundle -> result Q.

(** How a number is rendered, a builtin of Python. *)
Variable str_of_number : Q -> string.

(** The two fields of the object. *)
Record t : Type := mk {
  agents : list Agent;
  bundles : list (option Bundle)
}.

(** [__init__], lines 30-34: [bundles=None] stands for one [None] per
    agent. *)
Definition init (ags : list Agent) (bs : option (list (option Bundle))) : t :=
  match bs with
  | None => mk ags (repeat None (List.length ags))
  | Some bs' => mk ags bs'
  end.

(** [get_bundle], lines 36-37. *)
Definition get_bundle (self : t) (agent_index : Z) : result (option Bundle) :=
  list_get (bundles self) agent_index.

(** [get_bundles], lines 39-40. *)
Definition get_bundles (self : t) : list (option Bundle) := bundles self.

(** [set_bundle], lines 42-49: the new state of the object.  (The list is
    the caller's own when it was passed in; the model follows the object's
    view of it.) *)
Definition set_bundle (self : t) (agent_index : Z) (bundle : option Bundle)
  : result t :=
  bs <- list_set (bundles self) agent_index bundle ;;
  Ok (mk (agents self) bs).

(** [set_bundles], lines 51-58. *)
Definition set_bundles (self : t) (bs : list (option Bundle)) : t :=
  mk (agents self) bs.

(** [str] of a list of numbers. *)
Definition str_of_list (l : list Q) : string :=
  ("[" ++ String.concat ", " (map str_of_number l) ++ "]")%string.

(** One turn of the loop of [__repr__], lines 63-69: the line it adds.
    The format string has four fields; the fifth argument is evaluated and
    not rendered. *)
Definition repr_line (self : t) (i_agent : nat) (agent : Agent) : result string :=
  agent_bundle <- subscript (Some (bundles self)) i_agent ;;
  value <- agent_value agent agent_bundle ;;
  bundle_str <- stringify_slot agent_bundle ;;
  all_values <- comprehension (agent_value agent) (bundles self) ;;
  _ <- comprehension (fun bundle => v <- agent_value agent bundle ;; Ok (value - v))
                     (bundles self) ;;
  Ok (agent_name agent ++ "'s bundle: " ++ bundle_str
        ++ ",  value: " ++ str_of_number value
        ++ ",  all values: " ++ str_of_list all_values ++ newline)%string.

(** The loop of lines 62-69. *)
Fixpoint repr_loop (self : t) (pairs : list (nat * Agent)) (acc : string)
  : result string :=
  match pairs with
  | [] => Ok acc
  | (i_agent, agent) :: rest =>
      line <- repr_line self i_agent agent ;;
      repr_loop self rest (acc ++ line)%string
  end.

(** [__repr__], lines 60-70. *)
Definition repr (self : t) : result string :=
  repr_loop self (enumerate (agents self)) ""%string.

(** The line the rendering has for an agent whose bundle is [bundle], when
    the bundles of the object are [all] and the agent's value of a bundle
    is the number [val agent bundle]. *)
Definition line (val : Agent -> Bundle -> Q) (all : list Bundle)
  (agent : Agent) (bundle : Bundle) : string :=
  (agent_name agent ++ "'s bundle: " ++ stringify_bundle bundle
     ++ ",  value: " ++ str_of_number (val agent bundle)
     ++ ",  all values: " ++ str_of_list (map (val agent) all) ++ newline)%string.

End WithAgent.

Arguments agents {Agent} _.
Arguments bundles {Agent} _.
Arguments init {Agent} ags bs.
Arguments get_bundle {Agent} self agent_index.
Arguments get_bundles {Agent} self.
Arguments set_bundle {Agent} self agent_index bundle.
Arguments set_bundles {Agent} self bs.
Arguments repr_line {Agent} agent_name agent_value str_of_number self i_agent agent.
Arguments repr_loop {Agent} agent_name agent_value str_of_number self pairs acc.
Arguments repr {Agent} agent_name agent_value str_of_number self.
Arguments line {Agent} agent_name str_of_number val all agent bundle.

End Allocation.

(** An instance of the capability for the examples: an agent who values a
    bundle by the number of its items, and cannot value [None]. *)
Definition count_value (_ : AdditiveAgent) (slot : option Bundle) : result Q :=
  match slot with
  | None => Raise TypeError
  | Some bundle => Ok (inject_Z (Z.of_nat (List.length bundle)))
  end.

(** ** Rendered lines *)


(** The line the rendering of a [FractionalAllocation] has for an agent,
    its map and its value. *)
Definition fractional_line (str_of_number : number -> string)
  (a : AdditiveAgent) (m : FractionMap) (agent_value : number) : string :=
  (name a ++ "'s bundle: "
     ++ stringify_bundle (get_items_of_agent_in_alloc m)
     ++ ",  value: " ++ str_of_number agent_value ++ newline)%string.

(** The lines of the agents paired with their maps, in order, after the
    text [acc]; the first value that cannot be computed ends it. *)
Fixpoint fractional_lines (str_of_number : number -> string)
  (pairs : list (AdditiveAgent * FractionMap)) (acc : string) : result string :=
  match pairs with
  | [] => Ok acc
  | (a, m) :: rest =>
      agent_value <- get_value_of_agent_in_alloc (map_good_to_value a) m ;;
      fractional_lines str_of_number rest
        (acc ++ fractional_line str_of_number a m agent_value)%string
  end.

(** The agents' values added one after the other to [acc], in order. *)
Fixpoint total_from (pairs : list (AdditiveAgent * FractionMap)) (acc : number)
  : result number :=
  match pairs with
  | [] => Ok acc
  | (a, m) :: rest =>
      agent_value <- get_value_of_agent_in_alloc (map_good_to_value a) m ;;
      acc' <- py_add acc agent_value ;;
      total_from rest acc'
  end.

(** ** The matrix the validator reads *)

(** A map cut to [n] entries, or filled up to [n] entries with shares 0
    (under a key that plays no part). *)
Definition fit_to (n : nat) (m : FractionMap) : FractionMap :=
  firstn n m ++ repeat (""%string, PyInt 0) (n - List.length m).

(** ** The vocabulary of the specification *)

(** Number of item positions the validator looks at: the entry count of
    the first agent's map. *)
Definition item_count (maps : list FractionMap) : nat :=
  List.length (hd [] maps).

(** All maps declare the same items in the same order. *)
Definition same_items (maps : list FractionMap) : Prop :=
  forall m m', In m maps -> In m' maps -> keys m = keys m'.

(** [0 <= v] *)
Definition ge_zero (v : number) : bool :=
  match v with
  | PyInt z => (0 <=? z)%Z
  | PyFloat f => (0 <=? f)%float
  end.

(** [v <= 1] *)
Definition le_one (v : number) : bool :=
  match v with
  | PyInt z => (z <=? 1)%Z
  | PyFloat f => (f <=? 1)%float
  end.

(** [v] lies in [0,1]. *)
Definition in_unit_range (v : number) : Prop :=
  ge_zero v = true /\ le_one v = true.

(** [s] lies in (0,1]. *)
Definition in_half_open_range (s : number) : Prop :=
  gt_zero s = true /\ le_one s = true.

(** Every individual share lies in [0,1]. *)
Definition shares_in_range (maps : list FractionMap) : Prop :=
  forall m v, In m maps -> In v (values m) -> in_unit_range v.

(** The shares of item position [j], one for each agent whose map has
    that position, in the order of the agents. *)
Fixpoint column (maps : list FractionMap) (j : nat) : list number :=
  match maps with
  | [] => []
  | m :: rest =>
      match nth_error (values m) j with
      | Some v => v :: column rest j
      | None => column rest j
      end
  end.

(** The numbers [vs] added one after the other to [acc], left to right. *)
Fixpoint running_sum_from (acc : number) (vs : list number) : result number :=
  match vs with
  | [] => Ok acc
  | v :: rest => acc' <- py_add acc v ;; running_sum_from acc' rest
  end.

(** The summed share of item position [j]: the shares of the agents added
    in the order of the agents, starting from the [int] 0, in Python's
    arithmetic. *)
Definition column_sum (maps : list FractionMap) (j : nat) : result number :=
  running_sum_from (PyInt 0) (column maps j).

(** Every summed share can be computed: no addition raises. *)
Definition sums_computable (maps : list FractionMap) : Prop :=
  forall j, (j < item_count maps)%nat -> exists s, column_sum maps j = Ok s.

(** Every share is a [float], or every share is an [int]. *)
Definition all_floats (maps : list FractionMap) : Prop :=
  forall m v, In m maps -> In v (values m) -> exists f, v = PyFloat f.

Definition all_ints (maps : list FractionMap) : Prop :=
  forall m v, In m maps -> In v (values m) -> exists z, v = PyInt z.

(** The rational number a Python number stands for; none for an infinity
    or NaN. *)
Definition exact_value (v : number) : option Q :=
  match v with
  | PyInt z => Some (inject_Z z)
  | PyFloat f =>
      match Prim2SF f with
      | S754_zero _ => Some 0
      | S754_finite s m e =>
          Some ((if s then - (1) else 1) * inject_Z (Z.pos m) * (2 # 1) ^ e)
      | _ => None
      end
  end.

(** The sum, in the rationals, of the numbers of a list. *)
Fixpoint exact_sum (vs : list number) : option Q :=
  match vs with
  | [] => Some 0
  | v :: rest =>
      match exact_value v, exact_sum rest with
      | Some q, Some r => Some (q + r)
      | _, _ => None
      end
  end.

(** One turn of the sum by index: the product of position [i], then its
    addition. *)
Definition product_step (vals shares : list number)
  (racc : result number) (i : nat) : result number :=
  acc <- racc ;;
  p <- py_mul (nth i vals (PyInt 0)) (nth i shares (PyInt 0)) ;;
  py_add acc p.

(** The sum of value*share over the positions the two lists share, taken
    by index in ascending order from the [int] 0. *)
Definition positional_sum (vals shares : list number) : result number :=
  fold_left (product_step vals shares)
            (seq 0 (Nat.min (List.length vals) (List.length shares)))
            (Ok (PyInt 0)).



(** *** Maps of [int]s *)







(** The share at item position [j] of a map of [int]s multiplied by [c]. *)
Fixpoint int_scale_share (j : nat) (c : Z) (m : dict Z) : dict Z :=
  match m, j with
  | [], _ => []
  | (k, v) :: rest, O => (k, (c * v)%Z) :: rest
  | kv :: rest, S j' => kv :: int_scale_share j' c rest
  end.


(** *** The validator row by row *)

(** One row of the validator, by structural recursion on the values and
    the running sums side by side. *)
Fixpoint row_step (vs : list number) (sum_value_list : list number) : flow :=
  match vs, sum_value_list with
  | v :: vs', s :: rest =>
      match py_add s v with
      | Raise e => Throw e
      | Ok s' =>
          if gt_one v || lt_zero v then Return false [msg_out_of_range_share]
          else match row_step vs' rest with
               | Continue rest' => Continue (s' :: rest')
               | Return b out => Return b out
               | Throw e => Throw e
               end
      end
  | _, _ => Continue sum_value_list
  end.

(** Put a prefix back in front of the sums a loop continues with. *)
Definition prepend (pre : list number) (f : flow) : flow :=
  match f with
  | Continue l => Continue (pre ++ l)
  | Return b out => Return b out
  | Throw e => Throw e
  end.

(** What one agent's map does to the running sum of a position: nothing
    when the map has no entry there. *)
Definition advance (s : number) (entry : option number) : result number :=
  match entry with
  | None => Ok s
  | Some v => py_add s v
  end.

(** Two numbers no comparison and no later sum tells apart: the same
    number, or two [float] zeros, whose signs may differ. *)
Definition is_zero (x : spec_float) : bool :=
  match x with
  | S754_zero _ => true
  | _ => false
  end.

Definition same_number (a b : number) : Prop :=
  match a, b with
  | PyInt x, PyInt y => x = y
  | PyFloat f, PyFloat g =>
      Prim2SF f = Prim2SF g
      \/ (is_zero (Prim2SF f) = true /\ is_zero (Prim2SF g) = true)
  | _, _ => False
  end.

(** What two results have in common when their inputs are the same
    number. *)
Definition same_result (r r' : result number) : Prop :=
  match r, r' with
  | Ok a, Ok b => same_number a b
  | Raise e, Raise e' => e = e'
  | _, _ => False
  end.

Definition same_flow (f g : flow) : Prop :=
  match f, g with
  | Continue l, Continue l' => Forall2 same_number l l'
  | Return b out, Return b' out' => b = b' /\ out = out'
  | Throw e, Throw e' => e = e'
  | _, _ => False
  end.

(** ** The inputs of the doctests *)

Definition fm (x y z : number) : FractionMap :=
  [("x"%string, x); ("y"%string, y); ("z"%string, z)].

Definition doctest_halves : list FractionMap :=
  [fm (PyFloat 0.5) (PyFloat 0.5) (PyFloat 0.5);
   fm (PyFloat 0.5) (PyFloat 0.5) (PyFloat 0.5)].
Definition doctest_mixed : list FractionMap :=
  [fm (PyFloat 0.4) (PyInt 0) (PyFloat 0.5);
   fm (PyFloat 0.6) (PyInt 1) (PyFloat 0.5)].
Definition doctest_out_of_range : list FractionMap :=
  [fm (PyInt 0) (PyInt 0) (PyFloat 0.5);
   fm (PyFloat 0.6) (PyInt 1) (PyInt 5)].
Definition doctest_over_allocated : list FractionMap :=
  [fm (PyFloat 0.7) (PyFloat 0.5) (PyFloat 0.5);
   fm (PyFloat 0.9) (PyFloat 0.5) (PyFloat 0.5)].
Definition doctest_unclaimed : list FractionMap :=
  [fm (PyInt 0) (PyFloat 0.5) (PyFloat 0.5);
   fm (PyInt 0) (PyFloat 0.5) (PyFloat 0.5)].

Definition agent1 : AdditiveAgent :=
  mkAdditiveAgent "agent1" (fm (PyInt 1) (PyInt 2) (PyInt 3)).
Definition agent2 : AdditiveAgent :=
  mkAdditiveAgent "agent2" (fm (PyInt 3) (PyInt 2) (PyInt 1)).

(** Two agents who each hold all of item [y] and none of item [x]. *)
Definition unclaimed_then_over : list FractionMap :=
  [[("x"%string, PyInt 0); ("y"%string, PyInt 1)];
   [("x"%string, PyInt 0); ("y"%string, PyInt 1)]].

(** Five agents sharing one item; the shares are [float]s whose sum in the
    rationals is exactly 1. *)
Definition five_shares : list FractionMap :=
  [[("x"%string, PyFloat 0.07)]; [("x"%string, PyFloat 0.49)];
   [("x"%string, PyFloat 0.07)]; [("x"%string, PyFloat 0.16)];
   [("x"%string, PyFloat 0.21)]].



(** * Properties *)

(** ** The comparisons of floats *)

Lemma SFcompare_antisym (x y : spec_float) :
  SFcompare y x = option_map CompOpp (SFcompare x y).
Proof.
  destruct x as [sx|sx| |sx mx ex], y as [sy|sy| |sy my ey]; simpl;
    try reflexivity;
    try (destruct sx; reflexivity); try (destruct sy; reflexivity);
    try (destruct sx, sy; reflexivity).
  assert (H : Pos.compare_cont Eq my mx = CompOpp (Pos.compare_cont Eq mx my))
    by (symmetry; apply (Pos.compare_cont_antisym mx my Eq)).
  rewrite H, (Z.compare_antisym ex ey).
  destruct sx, sy, (ex ?= ey)%Z; simpl; rewrite ?CompOpp_involutive; reflexivity.
Qed.

Lemma SFleb_not_SFltb (x y : spec_float) :
  SFleb x y = true -> SFltb y x = false.
Proof.
  unfold SFleb, SFltb. rewrite (SFcompare_antisym x y).
  destruct (SFcompare x y) as [[| |]|]; simpl; intro H;
    first [reflexivity | discriminate H].
Qed.

Lemma SFltb_not_SFeqb (x y : spec_float) :
  SFltb x y = true -> SFeqb y x = false.
Proof.
  unfold SFeqb, SFltb. rewrite (SFcompare_antisym x y).
  destruct (SFcompare x y) as [[| |]|]; simpl; intro H;
    first [reflexivity | discriminate H].
Qed.

Lemma SFeqb_zero (x : spec_float) (s : bool) :
  SFeqb x (S754_zero s) = true -> is_zero x = true.
Proof.
  unfold SFeqb. destruct x as [sx|sx| |sx mx ex]; simpl; try reflexivity;
    try discriminate; destruct sx; discriminate.
Qed.

Lemma Prim2SF_zero : Prim2SF 0%float = S754_zero false.
Proof. reflexivity. Qed.

Lemma Prim2SF_one : Prim2SF 1%float = S754_finite false 4503599627370496 (-52).
Proof. reflexivity. Qed.

(** ** The comparisons of numbers *)

Lemma le_one_not_gt_one (v : number) : le_one v = true -> gt_one v = false.
Proof.
  destruct v as [z|f]; simpl.
  - intro H. apply Z.leb_le in H. apply Z.ltb_ge. assumption.
  - rewrite leb_spec, ltb_spec. apply SFleb_not_SFltb.
Qed.

Lemma ge_zero_not_lt_zero (v : number) : ge_zero v = true -> lt_zero v = false.
Proof.
  destruct v as [z|f]; simpl.
  - intro H. apply Z.leb_le in H. apply Z.ltb_ge. assumption.
  - rewrite leb_spec, ltb_spec. apply SFleb_not_SFltb.
Qed.

Lemma gt_zero_not_eq_zero (v : number) : gt_zero v = true -> eq_zero v = false.
Proof.
  destruct v as [z|f]; simpl.
  - intro H. apply Z.ltb_lt in H. apply Z.eqb_neq. lia.
  - rewrite eqb_spec, ltb_spec. apply SFltb_not_SFeqb.
Qed.

Lemma eq_zero_not_gt_one (v : number) : eq_zero v = true -> gt_one v = false.
Proof.
  destruct v as [z|f]; simpl.
  - intro H. apply Z.eqb_eq in H. subst. reflexivity.
  - rewrite eqb_spec, ltb_spec, Prim2SF_zero, Prim2SF_one. intro H.
    apply SFeqb_zero in H. destruct (Prim2SF f); try discriminate. reflexivity.
Qed.

Lemma range_check_passes (v : number) :
  in_unit_range v -> gt_one v || lt_zero v = false.
Proof.
  intros [H0 H1]. apply orb_false_iff. split.
  - now apply le_one_not_gt_one.
  - now apply ge_zero_not_lt_zero.
Qed.

Lemma half_open_passes (s : number) :
  in_half_open_range s -> gt_one s = false /\ eq_zero s = false.
Proof.
  intros [H0 H1]. split.
  - now apply le_one_not_gt_one.
  - now apply gt_zero_not_eq_zero.
Qed.

(** ** Numbers that differ in the sign of zero *)

Lemma same_number_refl (a : number) : same_number a a.
Proof. destruct a; simpl; auto. Qed.

Lemma same_number_sym (a b : number) : same_number a b -> same_number b a.
Proof.
  destruct a, b; simpl; try tauto; [congruence|].
  intros [H|[H1 H2]]; [left; congruence|right; tauto].
Qed.

Lemma same_number_trans (a b c : number) :
  same_number a b -> same_number b c -> same_number a c.
Proof.
  destruct a, b, c; simpl; try tauto; [congruence|].
  intros [H|[H1 H2]] [H'|[H1' H2']].
  - left. congruence.
  - right. rewrite H. tauto.
  - right. rewrite <- H'. tauto.
  - right. tauto.
Qed.

Lemma float_of_int_zero : float_of_int 0 = Ok 0%float.
Proof. reflexivity. Qed.

Lemma SFadd_zero_r (x : spec_float) :
  SF64add x (S754_zero false) = x
  \/ (is_zero x = true /\ is_zero (SF64add x (S754_zero false)) = true).
Proof.
  destruct x as [[|]|[|]| |sx mx ex]; simpl; auto.
Qed.

Lemma SFadd_zero_l (a b : bool) (y : spec_float) :
  SF64add (S754_zero a) y = SF64add (S754_zero b) y
  \/ (is_zero (SF64add (S754_zero a) y) = true
      /\ is_zero (SF64add (S754_zero b) y) = true).
Proof.
  destruct y as [[|]|[|]| |sy my ey], a, b; simpl; auto.
Qed.

Lemma float_add_same (f g y : float) :
  same_number (PyFloat f) (PyFloat g) ->
  same_number (PyFloat (f + y)) (PyFloat (g + y)).
Proof.
  cbn [same_number]. rewrite !add_spec. intros [H|[Hf Hg]].
  - left. now rewrite H.
  - destruct (Prim2SF f) as [a| | |]; try discriminate.
    destruct (Prim2SF g) as [b| | |]; try discriminate.
    apply SFadd_zero_l.
Qed.

(** Adding the [int] 0 changes no number for the purposes of the loops. *)
Lemma py_add_zero (s : number) :
  exists s', py_add s (PyInt 0) = Ok s' /\ same_number s s'.
Proof.
  destruct s as [z|f]; unfold py_add.
  - exists (PyInt z). rewrite Z.add_0_r. split; reflexivity.
  - rewrite float_of_int_zero. cbn [bind]. exists (PyFloat (f + 0)).
    split; [reflexivity|]. cbn [same_number]. rewrite add_spec, Prim2SF_zero.
    destruct (SFadd_zero_r (Prim2SF f)) as [H|[H1 H2]]; [left|right]; auto.
Qed.

Lemma py_add_same (s s' v : number) :
  same_number s s' -> same_result (py_add s v) (py_add s' v).
Proof.
  destruct s as [x|f], s' as [x'|g]; cbn [same_number]; try tauto.
  - intros ->. destruct v; unfold py_add; cbn [same_result same_number];
      [reflexivity|].
    destruct (float_of_int x'); cbn [bind same_result same_number]; auto.
  - intro H. destruct v as [y|y]; unfold py_add.
    + destruct (float_of_int y) as [y'|e]; cbn [bind same_result];
        [|reflexivity].
      now apply float_add_same.
    + cbn [same_result]. now apply float_add_same.
Qed.

Lemma gt_one_same (s s' : number) :
  same_number s s' -> gt_one s = gt_one s'.
Proof.
  destruct s as [x|f], s' as [x'|g]; cbn [same_number gt_one]; try tauto;
    [congruence|].
  rewrite !ltb_spec, Prim2SF_one. intros [H|[Hf Hg]]; [now rewrite H|].
  destruct (Prim2SF f); try discriminate.
  destruct (Prim2SF g); try discriminate. reflexivity.
Qed.

Lemma eq_zero_same (s s' : number) :
  same_number s s' -> eq_zero s = eq_zero s'.
Proof.
  destruct s as [x|f], s' as [x'|g]; cbn [same_number eq_zero]; try tauto;
    [congruence|].
  rewrite !eqb_spec, Prim2SF_zero. intros [H|[Hf Hg]]; [now rewrite H|].
  destruct (Prim2SF f); try discriminate.
  destruct (Prim2SF g); try discriminate. reflexivity.
Qed.

(** ** The inner loop is [row_step] *)

Lemma add_at_app (pre : list number) (s v : number) (suf : list number) :
  add_at (List.length pre) v (pre ++ s :: suf)
  = (s' <- py_add s v ;; Ok (pre ++ s' :: suf)).
Proof.
  induction pre as [|p pre IH]; cbn [List.length app add_at]; [reflexivity|].
  rewrite IH. destruct (py_add s v); reflexivity.
Qed.

(** The indices the inner loop receives are indices of the running sums. *)
Lemma zip_range_in_range (vs : list number) (n : nat) (v : number) (j : nat) :
  In (v, j) (zip_range vs n) -> (j < n)%nat.
Proof.
  unfold zip_range. intro H. apply in_combine_r in H.
  apply in_seq in H. lia.
Qed.

Lemma prepend_app (pre : list number) (x : number) (f : flow) :
  prepend (pre ++ [x]) f
  = prepend pre match f with
                | Continue l => Continue (x :: l)
                | Return b out => Return b out
                | Throw e => Throw e
                end.
Proof.
  destruct f; simpl; [|reflexivity|reflexivity]. now rewrite <- app_assoc.
Qed.

Lemma inner_loop_shift (vs pre suf : list number) :
  inner_loop (combine vs (seq (List.length pre) (List.length suf))) (pre ++ suf)
  = prepend pre (row_step vs suf).
Proof.
  revert pre suf. induction vs as [|v vs IH]; intros pre suf.
  - destruct suf; reflexivity.
  - destruct suf as [|s suf]; [reflexivity|].
    cbn [List.length seq combine inner_loop row_step].
    rewrite add_at_app.
    destruct (py_add s v) as [s'|e]; cbn [bind]; [|reflexivity].
    destruct (gt_one v || lt_zero v); [reflexivity|].
    replace (pre ++ s' :: suf) with ((pre ++ [s']) ++ suf)
      by (rewrite <- app_assoc; reflexivity).
    replace (S (List.length pre)) with (List.length (pre ++ [s']))
      by (rewrite length_app; simpl; lia).
    rewrite IH. apply prepend_app.
Qed.

Lemma inner_loop_row_step (vs sums : list number) :
  inner_loop (zip_range vs (List.length sums)) sums = row_step vs sums.
Proof.
  unfold zip_range.
  change sums with ([] ++ sums) at 2.
  change 0%nat with (@List.length number []).
  rewrite inner_loop_shift. destruct (row_step vs sums); reflexivity.
Qed.

Lemma outer_loop_cons (m : FractionMap) (rest : list FractionMap) (sums : list number) :
  outer_loop (m :: rest) sums
  = match row_step (values m) sums with
    | Continue sums' => outer_loop rest sums'
    | Return b out => Return b out
    | Throw e => Throw e
    end.
Proof. simpl. now rewrite inner_loop_row_step. Qed.

Lemma check_input_cons (first : FractionMap) (rest : list FractionMap) :
  check_input (first :: rest)
  = match outer_loop (first :: rest) (repeat (PyInt 0) (List.length first)) with
    | Return b out => Ok (b, out)
    | Continue sums => Ok (sum_loop sums)
    | Throw e => Raise e
    end.
Proof. reflexivity. Qed.

(** ** One row *)

Lemma row_step_length (vs sums r : list number) :
  row_step vs sums = Continue r -> List.length r = List.length sums.
Proof.
  revert sums r. induction vs as [|v vs IH]; intros sums r H.
  - destruct sums; injection H as <-; reflexivity.
  - destruct sums as [|s rest]; [injection H as <-; reflexivity|].
    simpl in H. destruct (py_add s v) as [s'|e]; [|discriminate].
    destruct (gt_one v || lt_zero v); [discriminate|].
    destruct (row_step vs rest) as [rest'| |] eqn:Hrest; try discriminate.
    injection H as <-. simpl. f_equal. now apply IH.
Qed.

Lemma row_step_Return (vs sums : list number) (b : bool) (out : list string) :
  row_step vs sums = Return b out ->
  b = false /\ out = [msg_out_of_range_share]
  /\ exists v, In v vs /\ gt_one v || lt_zero v = true.
Proof.
  revert sums. induction vs as [|v vs IH]; intros sums H.
  - destruct sums; discriminate.
  - destruct sums as [|s rest]; [discriminate|].
    simpl in H. destruct (py_add s v) as [s'|e]; [|discriminate].
    destruct (gt_one v || lt_zero v) eqn:Hv.
    + injection H as <- <-. split; [reflexivity|]. split; [reflexivity|].
      exists v. split; [now left|assumption].
    + destruct (row_step vs rest) as [rest'|b' out'|] eqn:Hrest; try discriminate.
      injection H as -> ->.
      destruct (IH rest Hrest) as (Hb & Hout & w & Hw & Hbad).
      split; [assumption|]. split; [assumption|].
      exists w. split; [now right|assumption].
Qed.

Lemma row_step_Throw (vs sums : list number) (e : exn) :
  row_step vs sums = Throw e -> e = OverflowError.
Proof.
  revert sums. induction vs as [|v vs IH]; intros sums H.
  - destruct sums; discriminate.
  - destruct sums as [|s rest]; [discriminate|].
    simpl in H. destruct (py_add s v) as [s'|e'] eqn:Hadd.
    + destruct (gt_one v || lt_zero v); [discriminate|].
      destruct (row_step vs rest) as [rest'|b' out'|e'] eqn:Hrest; try discriminate.
      injection H as ->. now apply (IH rest).
    + injection H as <-.
      destruct s as [x|x], v as [y|y]; simpl in Hadd; try discriminate.
      * unfold float_of_int in Hadd.
        destruct (binary_normalize prec emax x 0 false); simpl in Hadd;
          congruence.
      * unfold float_of_int in Hadd.
        destruct (binary_normalize prec emax y 0 false); simpl in Hadd;
          congruence.
Qed.

(** A row whose additions can all be computed either returns on a share
    out of range, or continues with every running sum advanced by the
    entry of its position; then every entry it read was in range. *)
Lemma row_step_cases (vs sums : list number) :
  (forall j s v, nth_error sums j = Some s -> nth_error vs j = Some v ->
                 exists a, py_add s v = Ok a) ->
  row_step vs sums = Return false [msg_out_of_range_share]
  \/ exists r,
       row_step vs sums = Continue r
       /\ (forall j s, nth_error sums j = Some s ->
                       exists a, advance s (nth_error vs j) = Ok a
                                 /\ nth_error r j = Some a)
       /\ (forall v, In v (firstn (List.length sums) vs) ->
                     gt_one v || lt_zero v = false).
Proof.
  revert sums. induction vs as [|v vs IH]; intros sums Hadd.
  - right. exists sums. split; [destruct sums; reflexivity|]. split.
    + intros j s Hs. exists s. rewrite nth_error_nil. split; [reflexivity|assumption].
    + intros v Hv. rewrite firstn_nil in Hv. destruct Hv.
  - destruct sums as [|s rest].
    + right. exists []. split; [reflexivity|]. split.
      * intros j s Hs. rewrite nth_error_nil in Hs. discriminate.
      * intros w Hw. destruct Hw.
    + cbn [row_step].
      destruct (Hadd 0%nat s v eq_refl eq_refl) as (a & Ha). rewrite Ha.
      destruct (gt_one v || lt_zero v) eqn:Hv; [now left|].
      destruct (IH rest) as [Hret|(r & Hr & Hnth & Hrange)].
      * intros j s0 v0 Hs0 Hv0. apply (Hadd (S j) s0 v0); assumption.
      * rewrite Hret. now left.
      * rewrite Hr. right. exists (a :: r). split; [reflexivity|]. split.
        -- intros [|j] s0 Hs0; cbn [nth_error] in *.
           ++ injection Hs0 as <-. exists a. split; [exact Ha|reflexivity].
           ++ now apply Hnth.
        -- intros w Hw. cbn [List.length firstn] in Hw.
           destruct Hw as [<-|Hw]; [assumption|now apply Hrange].
Qed.

(** ** Columns *)

Lemma running_sum_from_column (m : FractionMap) (rest : list FractionMap)
  (j : nat) (s : number) :
  running_sum_from s (column (m :: rest) j)
  = (a <- advance s (nth_error (values m) j) ;;
     running_sum_from a (column rest j)).
Proof.
  cbn [column]. destruct (nth_error (values m) j); reflexivity.
Qed.

Lemma nth_error_repeat_Some {A : Type} (x y : A) (n j : nat) :
  nth_error (repeat x n) j = Some y -> (j < n)%nat /\ y = x.
Proof.
  intro H. split.
  - rewrite <- (repeat_length x n). apply nth_error_Some. congruence.
  - apply nth_error_In in H. now apply repeat_spec in H.
Qed.

Lemma nth_error_repeat_lt {A : Type} (x : A) (n j : nat) :
  (j < n)%nat -> nth_error (repeat x n) j = Some x.
Proof.
  intro Hj. destruct (nth_error (repeat x n) j) as [y|] eqn:H.
  - apply nth_error_repeat_Some in H. now destruct H as [_ ->].
  - apply nth_error_None in H. rewrite repeat_length in H. lia.
Qed.

(** ** All rows *)

Lemma outer_loop_length (maps : list FractionMap) (sums r : list number) :
  outer_loop maps sums = Continue r -> List.length r = List.length sums.
Proof.
  revert sums. induction maps as [|m maps IH]; intros sums H.
  - now injection H as <-.
  - rewrite outer_loop_cons in H.
    destruct (row_step (values m) sums) as [r'| |] eqn:Hr; try discriminate.
    rewrite (IH r' H). now apply (row_step_length (values m)).
Qed.

Lemma outer_loop_Return
  (maps : list FractionMap) (sums : list number) (b : bool) (out : list string) :
  outer_loop maps sums = Return b out ->
  b = false /\ out = [msg_out_of_range_share]
  /\ exists m v, In m maps /\ In v (values m) /\ gt_one v || lt_zero v = true.
Proof.
  revert sums. induction maps as [|m maps IH]; intros sums H; [discriminate|].
  rewrite outer_loop_cons in H.
  destruct (row_step (values m) sums) as [r'|b' out'|e] eqn:Hr; try discriminate.
  - destruct (IH r' H) as (Hb & Hout & m' & v & Hm' & Hv & Hbad).
    split; [assumption|]. split; [assumption|].
    exists m', v. split; [now right|auto].
  - injection H as -> ->.
    destruct (row_step_Return _ _ _ _ Hr) as (Hb & Hout & v & Hv & Hbad).
    split; [assumption|]. split; [assumption|].
    exists m, v. split; [now left|auto].
Qed.

Lemma outer_loop_Throw (maps : list FractionMap) (sums : list number) (e : exn) :
  outer_loop maps sums = Throw e -> e = OverflowError.
Proof.
  revert sums. induction maps as [|m maps IH]; intros sums H; [discriminate|].
  rewrite outer_loop_cons in H.
  destruct (row_step (values m) sums) as [r'|b' out'|e'] eqn:Hr; try discriminate.
  - now apply (IH r').
  - injection H as <-. now apply (row_step_Throw _ _ _ Hr).
Qed.

(** When every running sum can be computed, the rows either return on a
    share out of range, or continue with the sums of the columns; then
    every entry that was read was in range. *)
Lemma outer_loop_cases (maps : list FractionMap) (sums : list number) :
  (forall j s, nth_error sums j = Some s ->
               exists t, running_sum_from s (column maps j) = Ok t) ->
  outer_loop maps sums = Return false [msg_out_of_range_share]
  \/ exists r,
       outer_loop maps sums = Continue r
       /\ (forall j s, nth_error sums j = Some s ->
                       exists t, running_sum_from s (column maps j) = Ok t
                                 /\ nth_error r j = Some t)
       /\ (forall m v, In m maps ->
                       In v (firstn (List.length sums) (values m)) ->
                       gt_one v || lt_zero v = false).
Proof.
  revert sums. induction maps as [|m maps IH]; intros sums Hsum.
  - right. exists sums. split; [reflexivity|]. split.
    + intros j s Hs. exists s. split; [reflexivity|assumption].
    + intros m v [].
  - rewrite outer_loop_cons.
    assert (Hadv : forall j s, nth_error sums j = Some s ->
                     exists a, advance s (nth_error (values m) j) = Ok a
                               /\ exists t, running_sum_from a (column maps j) = Ok t).
    { intros j s Hs. destruct (Hsum j s Hs) as (t & Ht).
      rewrite running_sum_from_column in Ht.
      destruct (advance s (nth_error (values m) j)) as [a|e]; [|discriminate].
      exists a. split; [reflexivity|]. now exists t. }
    destruct (row_step_cases (values m) sums) as [Hret|(r & Hr & Hnth & Hrange)].
    + intros j s v Hs Hv. destruct (Hadv j s Hs) as (a & Ha & _).
      rewrite Hv in Ha. now exists a.
    + rewrite Hret. now left.
    + rewrite Hr.
      pose proof (row_step_length _ _ _ Hr) as Hlen.
      destruct (IH r) as [Hret|(r' & Hr' & Hnth' & Hrange')].
      * intros j a Ha.
        destruct (nth_error sums j) as [s|] eqn:Hs.
        -- destruct (Hnth j s Hs) as (a' & Ha' & Hra).
           destruct (Hadv j s Hs) as (a'' & Ha'' & t & Ht).
           exists t. congruence.
        -- apply nth_error_None in Hs.
           assert (nth_error r j <> None) by congruence.
           apply nth_error_Some in H. lia.
      * now left.
      * right. exists r'. split; [assumption|]. split.
        -- intros j s Hs. destruct (Hnth j s Hs) as (a & Ha & Hra).
           destruct (Hnth' j a Hra) as (t & Ht & Hrt).
           exists t. split; [|assumption].
           rewrite running_sum_from_column, Ha. exact Ht.
        -- intros m' v [<-|Hm'] Hv; [now apply Hrange|].
           apply (Hrange' m' v Hm'). now rewrite Hlen.
Qed.

(** ** The loop over the sums *)

Lemma sum_loop_first (r : list number) (p : nat) (s : number) :
  nth_error r p = Some s ->
  (forall i t, (i < p)%nat -> nth_error r i = Some t -> in_half_open_range t) ->
  (gt_one s = true -> sum_loop r = (false, [msg_over_allocated_item]))
  /\ (eq_zero s = true -> sum_loop r = (false, [msg_unclaimed_item])).
Proof.
  revert p. induction r as [|x r IH]; intros p Hp Hbefore.
  - rewrite nth_error_nil in Hp. discriminate.
  - destruct p as [|p]; cbn [nth_error] in Hp; cbn [sum_loop].
    + injection Hp as ->. split; intro H.
      * now rewrite H.
      * rewrite (eq_zero_not_gt_one s H). now rewrite H.
    + destruct (half_open_passes x) as [Hgt Hz];
        [apply (Hbefore 0%nat); [lia|reflexivity]|].
      rewrite Hgt, Hz. apply (IH p Hp).
      intros i t Hi Ht. apply (Hbefore (S i)); [lia|assumption].
Qed.

Lemma sum_loop_ok (r : list number) :
  (forall j t, nth_error r j = Some t -> in_half_open_range t) ->
  sum_loop r = (true, []).
Proof.
  induction r as [|x r IH]; intro H; [reflexivity|].
  cbn [sum_loop].
  destruct (half_open_passes x) as [Hgt Hz]; [apply (H 0%nat); reflexivity|].
  rewrite Hgt, Hz. apply IH. intros j t Ht. apply (H (S j)). exact Ht.
Qed.

Lemma sum_loop_outcomes (r : list number) :
  sum_loop r = (true, [])
  \/ sum_loop r = (false, [msg_over_allocated_item])
  \/ sum_loop r = (false, [msg_unclaimed_item]).
Proof.
  induction r as [|s r IH]; simpl; [now left|].
  destruct (gt_one s); [right; now left|].
  destruct (eq_zero s); [right; now right|exact IH].
Qed.

(** ** What [check_input] computes *)


Lemma shares_in_range_passes (maps : list FractionMap) :
  shares_in_range maps ->
  forall m v, In m maps -> In v (values m) -> gt_one v || lt_zero v = false.
Proof.
  intros H m v Hm Hv. apply range_check_passes. now apply (H m v).
Qed.

(** When every summed share can be computed, [check_input] either
    reports a share out of range that is there, or hands the summed shares
    to its second loop, every entry it read being in range. *)
Lemma check_input_sums (maps : list FractionMap) :
  maps <> [] ->
  sums_computable maps ->
  (check_input maps = Ok (false, [msg_out_of_range_share])
   /\ exists m v, In m maps /\ In v (values m) /\ gt_one v || lt_zero v = true)
  \/ exists r,
       check_input maps = Ok (sum_loop r)
       /\ List.length r = item_count maps
       /\ (forall j, (j < item_count maps)%nat ->
                     exists t, column_sum maps j = Ok t /\ nth_error r j = Some t)
       /\ (forall m v, In m maps ->
                       In v (firstn (item_count maps) (values m)) ->
                       gt_one v || lt_zero v = false).
Proof.
  intros Hne Hsums. destruct maps as [|first rest]; [congruence|].
  rewrite check_input_cons. unfold item_count, sums_computable in *. cbn [hd] in *.
  destruct (outer_loop_cases (first :: rest) (repeat (PyInt 0) (List.length first)))
    as [Hret|(r & Hr & Hnth & Hrange)].
  - intros j s Hs. apply nth_error_repeat_Some in Hs. destruct Hs as [Hj ->].
    exact (Hsums j Hj).
  - rewrite Hret. left. split; [reflexivity|].
    now destruct (outer_loop_Return _ _ _ _ Hret) as (_ & _ & H).
  - rewrite Hr. right. exists r. split; [reflexivity|].
    pose proof (outer_loop_length _ _ _ Hr) as Hlen.
    rewrite repeat_length in Hlen, Hrange.
    split; [assumption|]. split; [|assumption].
    intros j Hj. apply (Hnth j (PyInt 0)). now apply nth_error_repeat_lt.
Qed.

(** With every share in range as well, the second loop is reached. *)
Lemma check_input_sums_in_range (maps : list FractionMap) :
  maps <> [] ->
  sums_computable maps ->
  shares_in_range maps ->
  exists r,
    check_input maps = Ok (sum_loop r)
    /\ List.length r = item_count maps
    /\ (forall j, (j < item_count maps)%nat ->
                  exists t, column_sum maps j = Ok t /\ nth_error r j = Some t).
Proof.
  intros Hne Hsums Hrange.
  destruct (check_input_sums maps Hne Hsums)
    as [(_ & m & v & Hm & Hv & Hbad)|(r & Hr & Hlen & Hnth & _)].
  - rewrite (shares_in_range_passes maps Hrange m v Hm Hv) in Hbad. discriminate.
  - exists r. auto.
Qed.

(** ** Extra entries *)

Lemma row_step_firstn (vs sums : list number) :
  row_step vs sums = row_step (firstn (List.length sums) vs) sums.
Proof.
  revert sums. induction vs as [|v vs IH]; intros [|s rest]; simpl; try reflexivity.
  now rewrite <- IH.
Qed.

Lemma values_firstn {V : Type} (n : nat) (m : dict V) :
  values (firstn n m) = firstn n (values m).
Proof. unfold values. symmetry. apply firstn_map. Qed.

Lemma outer_loop_firstn (maps : list FractionMap) (sums : list number) :
  outer_loop maps sums
  = outer_loop (map (firstn (List.length sums)) maps) sums.
Proof.
  revert sums. induction maps as [|m maps IH]; intros sums; [reflexivity|].
  cbn [map]. rewrite !outer_loop_cons, values_firstn, <- row_step_firstn.
  destruct (row_step (values m) sums) as [r| |] eqn:Hr; try reflexivity.
  rewrite <- (row_step_length _ _ _ Hr). apply IH.
Qed.

Lemma outer_loop_no_items (maps : list FractionMap) :
  outer_loop maps [] = Continue [].
Proof.
  induction maps as [|m maps IH]; [reflexivity|].
  rewrite outer_loop_cons. destruct (values m); exact IH.
Qed.

(** ** The validator: claims *)

(** A comparison or an equation between concrete numbers. *)
Ltac number_decide :=
  vm_compute; repeat (apply conj); first [reflexivity | discriminate].

(** Case analysis on membership in a concrete list. *)
Ltac in_cases :=
  repeat match goal with
         | H : In _ _ |- _ => compute in H
         | H : _ = _ \/ _ |- _ => destruct H as [<-|H]
         | H : False |- _ => destruct H
         end.

Lemma doctest_mixed_in_range : shares_in_range doctest_mixed.
Proof. intros m v Hm Hv. in_cases; number_decide. Qed.

Lemma doctest_mixed_sums (j : nat) :
  (j < item_count doctest_mixed)%nat ->
  exists s, column_sum doctest_mixed j = Ok s /\ in_half_open_range s.
Proof.
  intro Hj. destruct j as [|[|[|j]]].
  - exists (PyFloat 1). number_decide.
  - exists (PyInt 1). number_decide.
  - exists (PyFloat 1). number_decide.
  - unfold item_count in Hj. simpl in Hj. lia.
Qed.

Lemma doctest_mixed_valid : check_input doctest_mixed = Ok (true, []).
Proof. vm_compute. reflexivity. Qed.

Lemma doctest_mixed_same_items : same_items doctest_mixed.
Proof. intros m m' Hm Hm'. in_cases; reflexivity. Qed.

Lemma sums_computable_3 (maps : list FractionMap) :
  item_count maps = 3%nat ->
  (exists s, column_sum maps 0 = Ok s) ->
  (exists s, column_sum maps 1 = Ok s) ->
  (exists s, column_sum maps 2 = Ok s) ->
  sums_computable maps.
Proof.
  intros Hn H0 H1 H2 j Hj. rewrite Hn in Hj.
  destruct j as [|[|[|j]]]; try assumption. lia.
Qed.

Lemma doctest_over_allocated_in_range : shares_in_range doctest_over_allocated.
Proof. intros m v Hm Hv. in_cases; number_decide. Qed.

Lemma doctest_over_allocated_computable : sums_computable doctest_over_allocated.
Proof.
  apply sums_computable_3; [reflexivity|..]; eexists; vm_compute; reflexivity.
Qed.

Lemma doctest_unclaimed_in_range : shares_in_range doctest_unclaimed.
Proof. intros m v Hm Hv. in_cases; number_decide. Qed.

Lemma doctest_unclaimed_computable : sums_computable doctest_unclaimed.
Proof.
  apply sums_computable_3; [reflexivity|..]; eexists; vm_compute; reflexivity.
Qed.



Lemma unclaimed_then_over_well_formed :
  same_items unclaimed_then_over /\ shares_in_range unclaimed_then_over.
Proof.
  split.
  - intros m m' Hm Hm'. in_cases; reflexivity.
  - intros m v Hm Hv. in_cases; number_decide.
Qed.

Lemma five_shares_well_formed :
  same_items five_shares /\ shares_in_range five_shares.
Proof.
  split.
  - intros m m' Hm Hm'. in_cases; reflexivity.
  - intros m v Hm Hv. in_cases; number_decide.
Qed.


(** C5, as amended.  For every non-empty list of fraction maps in which
    every share lies in [0,1] and the summed share of every item
    position, added in the order of the agents in Python's arithmetic, can
    be computed and lies in (0,1], [check_input] returns [True] and prints
    nothing.  (That the maps declare the same items is not needed.) *)
Theorem check_input_accepts_valid (maps : list FractionMap) :
  maps <> [] ->
  shares_in_range maps ->
  (forall j, (j < item_count maps)%nat ->
             exists s, column_sum maps j = Ok s /\ in_half_open_range s) ->
  check_input maps = Ok (true, []).
Proof.
  intros Hne Hrange Hsums.
  assert (Hcomp : sums_computable maps).
  { intros j Hj. destruct (Hsums j Hj) as (s & Hs & _). now exists s. }
  destruct (check_input_sums_in_range maps Hne Hcomp Hrange)
    as (r & Hr & Hlen & Hnth).
  rewrite Hr. f_equal. apply sum_loop_ok.
  intros j t Ht.
  assert (Hj : (j < item_count maps)%nat).
  { rewrite <- Hlen. apply nth_error_Some. congruence. }
  destruct (Hnth j Hj) as (t' & Ht' & Hrt).
  destruct (Hsums j Hj) as (s & Hs & Hin). congruence.
Qed.


(** C1, as amended.  With every share in [0,1] and every summed share
    computable, the diagnostic is that of the lowest item position whose
    summed share, added in the order of the agents in Python's
    arithmetic, is not in (0,1]: over-allocation if the sum there exceeds
    1, unclaimed item if it is 0. *)
Theorem check_input_first_violation
  (maps : list FractionMap) (p : nat) (s : number) :
  shares_in_range maps ->
  sums_computable maps ->
  (p < item_count maps)%nat ->
  (forall i, (i < p)%nat ->
             exists t, column_sum maps i = Ok t /\ in_half_open_range t) ->
  column_sum maps p = Ok s ->
  (gt_one s = true ->
   check_input maps = Ok (false, [msg_over_allocated_item]))
  /\ (eq_zero s = true ->
      check_input maps = Ok (false, [msg_unclaimed_item])).
Proof.
  intros Hrange Hcomp Hp Hbefore Hs.
  assert (Hne : maps <> []) by (intros ->; unfold item_count in Hp; simpl in Hp; lia).
  destruct (check_input_sums_in_range maps Hne Hcomp Hrange)
    as (r & Hr & Hlen & Hnth).
  rewrite Hr.
  destruct (Hnth p Hp) as (s' & Hs' & Hrs).
  assert (s' = s) by congruence. subst s'.
  destruct (sum_loop_first r p s Hrs) as [Hover Hunclaimed].
  - intros i t Hi Ht.
    destruct (Hnth i) as (t' & Ht' & Hrt); [lia|].
    destruct (Hbefore i Hi) as (t'' & Ht'' & Hin). congruence.
  - split; intro H; [rewrite Hover|rewrite Hunclaimed]; auto.
Qed.

(** C9.  [check_input] gives the same result on a list of maps and on the
    list in which every map is cut to the entry count of the first one: the
    entries past that count are neither summed nor range-checked.  So a
    list passes although such an entry is out of range. *)
Theorem check_input_ignores_extra_entries :
  (forall maps,
      check_input maps = check_input (map (firstn (item_count maps)) maps))
  /\ (exists maps m v,
         In m maps /\ (item_count maps < List.length m)%nat
         /\ nth (item_count maps) (values m) (PyInt 0) = v /\ gt_one v = true
         /\ check_input maps = Ok (true, []))
  /\ (exists maps m v,
         In m maps /\ (item_count maps < List.length m)%nat
         /\ nth (item_count maps) (values m) (PyInt 0) = v /\ lt_zero v = true
         /\ check_input maps = Ok (true, [])).
Proof.
  split; [|split].
  - intros [|first rest]; [reflexivity|].
    unfold item_count. cbn [hd map]. rewrite !check_input_cons.
    rewrite (outer_loop_firstn (first :: rest)), repeat_length.
    cbn [map]. rewrite !firstn_all. reflexivity.
  - exists [[("x"%string, PyInt 1)]; [("x"%string, PyInt 0); ("y"%string, PyInt 5)]],
           [("x"%string, PyInt 0); ("y"%string, PyInt 5)], (PyInt 5).
    repeat split; simpl; auto.
  - exists [[("x"%string, PyInt 1)]; [("x"%string, PyInt 0); ("y"%string, PyInt (-1))]],
           [("x"%string, PyInt 0); ("y"%string, PyInt (-1))], (PyInt (-1)).
    repeat split; simpl; auto.
Qed.

(** C2, as amended.  When the first map has no entries [check_input]
    returns [True] and prints nothing, whatever the other maps hold, and
    the construction with as many agents as maps yields the object with
    both fields set. *)
Theorem check_input_empty_item_set (rest : list FractionMap) :
  check_input ([] :: rest) = Ok (true, [])
  /\ forall ags, List.length ags = S (List.length rest) ->
       FractionalAllocation_init ags ([] :: rest)
       = Ok (mkFractionalAllocation (Some ags) (Some ([] :: rest)), []).
Proof.
  assert (H : check_input ([] :: rest) = Ok (true, [])).
  { rewrite check_input_cons.
    change (repeat (PyInt 0) (List.length (@nil (string * number)))) with (@nil number).
    now rewrite outer_loop_no_items. }
  split; [assumption|].
  intros ags Hlen. unfold FractionalAllocation_init.
  cbn [List.length]. rewrite Hlen, Nat.eqb_refl. cbn [negb].
  rewrite H. reflexivity.
Qed.

(** ** The validator on concrete inputs *)

Lemma check_input_accepts_valid_witness :
  check_input doctest_mixed = Ok (true, []).
Proof.
  apply check_input_accepts_valid.
  - discriminate.
  - exact doctest_mixed_in_range.
  - exact doctest_mixed_sums.
Defined.

(** C5 as stated fails on floats: here every share is in [0,1] and the
    shares of the one item sum, in the rationals, to exactly 1, but the
    validator's running sum is 1.0000000000000002 and it reports
    over-allocation. *)
Lemma exact_sum_accepted_float_sum_rejected :
  five_shares <> []
  /\ same_items five_shares
  /\ shares_in_range five_shares
  /\ (exists q, exact_sum (column five_shares 0) = Some q /\ q == 1)
  /\ column_sum five_shares 0 = Ok (PyFloat 1.0000000000000002)
  /\ check_input five_shares = Ok (false, [msg_over_allocated_item])
  /\ check_input five_shares <> Ok (true, []).
Proof.
  destruct five_shares_well_formed as [Hsame Hrange].
  split; [discriminate|]. split; [assumption|]. split; [assumption|].
  split; [eexists; split; [vm_compute; reflexivity|vm_compute; reflexivity]|].
  split; [vm_compute; reflexivity|].
  split; [vm_compute; reflexivity|vm_compute; discriminate].
Qed.



Lemma check_input_first_violation_witness :
  check_input doctest_over_allocated = Ok (false, [msg_over_allocated_item])
  /\ check_input doctest_unclaimed = Ok (false, [msg_unclaimed_item]).
Proof.
  split.
  - apply (check_input_first_violation doctest_over_allocated 0 (PyFloat 1.6)).
    + exact doctest_over_allocated_in_range.
    + exact doctest_over_allocated_computable.
    + unfold item_count. simpl. lia.
    + intros i Hi. lia.
    + vm_compute. reflexivity.
    + vm_compute. reflexivity.
  - apply (check_input_first_violation doctest_unclaimed 0 (PyInt 0)).
    + exact doctest_unclaimed_in_range.
    + exact doctest_unclaimed_computable.
    + unfold item_count. simpl. lia.
    + intros i Hi. lia.
    + vm_compute. reflexivity.
    + vm_compute. reflexivity.
Defined.

(** C1 as stated fails: here every share is in [0,1], item position 1 is
    over-allocated and item position 0 is unclaimed, and the validator
    reports the unclaimed item. *)
Lemma unclaimed_reported_before_over_allocated :
  same_items unclaimed_then_over
  /\ shares_in_range unclaimed_then_over
  /\ (exists s, column_sum unclaimed_then_over 1 = Ok s /\ gt_one s = true)
  /\ (exists s, column_sum unclaimed_then_over 0 = Ok s /\ eq_zero s = true)
  /\ check_input unclaimed_then_over = Ok (false, [msg_unclaimed_item])
  /\ check_input unclaimed_then_over <> Ok (false, [msg_over_allocated_item]).
Proof.
  destruct unclaimed_then_over_well_formed as [Hsame Hrange].
  split; [assumption|]. split; [assumption|].
  split; [exists (PyInt 2); split; reflexivity|].
  split; [exists (PyInt 0); split; reflexivity|].
  split; [reflexivity|discriminate].
Qed.

(** C2 as stated fails on the empty list of maps: [check_input] raises
    [IndexError], and so does the construction from no agents and no
    maps. *)
Lemma check_input_empty_list_faults :
  check_input [] = Raise IndexError
  /\ check_input [] <> Ok (true, [])
  /\ FractionalAllocation_init [] [] = Raise IndexError.
Proof. repeat split. discriminate. Qed.

Lemma check_input_empty_item_set_witness :
  check_input [[]; []] = Ok (true, [])
  /\ FractionalAllocation_init [agent1; agent2] [[]; []]
     = Ok (mkFractionalAllocation (Some [agent1; agent2]) (Some [[]; []]), []).
Proof.
  destruct (check_input_empty_item_set [[]]) as [Hcheck Hinit].
  split; [exact Hcheck|]. apply Hinit. reflexivity.
Defined.

(** ** The container *)




(** C10.  On an object whose fields are [None],
    [value_of_fractional_allocation] raises [TypeError]: it returns no
    number.  Only the rendering answers on such an object, with the empty
    string. *)
Theorem value_of_fractional_allocation_invalid
  (str_of_number : number -> string) (self : FractionalAllocation) :
  agents self = None ->
  map_item_to_fraction self = None ->
  value_of_fractional_allocation self = Raise TypeError
  /\ (forall r, value_of_fractional_allocation self <> Ok r)
  /\ FractionalAllocation_repr str_of_number self = Ok ""%string.
Proof.
  intros Ha Hm. unfold value_of_fractional_allocation, FractionalAllocation_repr.
  rewrite Ha, Hm. repeat split. discriminate.
Qed.

Lemma value_of_fractional_allocation_invalid_witness :
  value_of_fractional_allocation sentinel = Raise TypeError
  /\ (forall r, value_of_fractional_allocation sentinel <> Ok r)
  /\ FractionalAllocation_repr (fun _ => EmptyString) sentinel = Ok ""%string.
Proof.
  apply value_of_fractional_allocation_invalid; reflexivity.
Defined.

(** ** Fractional valuation *)

Lemma bind_Ok {A : Type} (r : result A) : (x <- r ;; Ok x) = r.
Proof. now destruct r. Qed.

Lemma fold_left_product_step_shift
  (v s : number) (vals shares : list number) (l : list nat) (racc : result number) :
  fold_left (product_step (v :: vals) (s :: shares)) (map S l) racc
  = fold_left (product_step vals shares) l racc.
Proof.
  revert racc. induction l as [|i l IH]; intro racc; [reflexivity|].
  cbn [map fold_left]. rewrite IH. reflexivity.
Qed.

Lemma value_loop_positional (vals shares : list number) (racc : result number) :
  (acc <- racc ;; value_loop (combine vals shares) acc)
  = fold_left (product_step vals shares)
              (seq 0 (Nat.min (List.length vals) (List.length shares))) racc.
Proof.
  revert shares racc. induction vals as [|v vals IH]; intros shares racc.
  - cbn. apply bind_Ok.
  - destruct shares as [|s shares].
    + cbn. apply bind_Ok.
    + cbn [List.length Nat.min seq fold_left combine].
      rewrite <- seq_shift, fold_left_product_step_shift, <- IH.
      unfold product_step at 1. cbn [nth value_loop].
      destruct racc as [acc|e]; cbn [bind]; [|reflexivity].
      destruct (py_mul v s) as [p|e]; cbn [bind]; [|reflexivity].
      destruct (py_add acc p); reflexivity.
Qed.

(** C6, as amended.  The fractional value of an agent is value*share
    added up from the [int] 0 over the positions the two maps share, in
    enumeration order and in Python's arithmetic; the keys play no part,
    and the result, a number or an arithmetic exception, is that of the
    two maps cut to the length of the shorter one. *)
Theorem get_value_of_agent_in_alloc_positional
  (value_of_the_whole_items : dict number) (amount_of_the_items : FractionMap) :
  get_value_of_agent_in_alloc value_of_the_whole_items amount_of_the_items
  = positional_sum (values value_of_the_whole_items) (values amount_of_the_items)
  /\ (let n := Nat.min (List.length value_of_the_whole_items)
                       (List.length amount_of_the_items) in
      get_value_of_agent_in_alloc value_of_the_whole_items amount_of_the_items
      = get_value_of_agent_in_alloc (firstn n value_of_the_whole_items)
                                    (firstn n amount_of_the_items)).
Proof.
  split.
  - unfold get_value_of_agent_in_alloc, positional_sum.
    exact (value_loop_positional _ _ (Ok (PyInt 0))).
  - cbv zeta. unfold get_value_of_agent_in_alloc.
    rewrite !values_firstn, <- combine_firstn.
    rewrite firstn_all2; [reflexivity|].
    rewrite length_combine. unfold values. rewrite !length_map. lia.
Qed.

(** C6 as stated fails in two ways.  An error can be raised: an [int]
    value too large for a [float] cannot multiply a [float] share.  And
    the result is not the sum of the products: 3 * 0.6 is rounded. *)
Lemma get_value_raises_and_rounds :
  get_value_of_agent_in_alloc [("x"%string, PyInt (10 ^ 400))]
                              [("x"%string, PyFloat 0.5)]
  = Raise OverflowError
  /\ get_value_of_agent_in_alloc [("x"%string, PyInt 3)]
                                 [("x"%string, PyFloat 0.6)]
     = Ok (PyFloat 1.7999999999999998)
  /\ exists q r,
       exact_value (PyFloat 1.7999999999999998) = Some q
       /\ exact_value (PyFloat 0.6) = Some r
       /\ ~ q == 3 * r.
Proof.
  split; [vm_compute; reflexivity|]. split; [vm_compute; reflexivity|].
  eexists. eexists. split; [vm_compute; reflexivity|].
  split; [vm_compute; reflexivity|]. vm_compute. discriminate.
Qed.

(** ** Social value *)

Lemma subscript_app {A : Type} (pre : list A) (a : A) (suf : list A) :
  subscript (Some (pre ++ a :: suf)) (List.length pre) = Ok a.
Proof.
  unfold subscript. rewrite nth_error_app2 by lia.
  now rewrite Nat.sub_diag.
Qed.

Lemma social_loop_shift
  (ags_suf ags_pre : list AdditiveAgent) (maps_pre maps_suf : list FractionMap)
  (acc : number) :
  List.length ags_pre = List.length maps_pre ->
  List.length ags_suf = List.length maps_suf ->
  social_loop (mkFractionalAllocation (Some (ags_pre ++ ags_suf))
                                      (Some (maps_pre ++ maps_suf)))
              (combine (seq (List.length ags_pre) (List.length ags_suf)) ags_suf)
              acc
  = total_from (combine ags_suf maps_suf) acc.
Proof.
  revert ags_pre maps_pre maps_suf acc.
  induction ags_suf as [|a ags_suf IH]; intros ags_pre maps_pre maps_suf acc Hpre Hsuf.
  - reflexivity.
  - destruct maps_suf as [|m maps_suf]; [discriminate|].
    cbn [List.length seq combine social_loop total_from agents map_item_to_fraction].
    rewrite subscript_app. rewrite Hpre, subscript_app. cbn [bind].
    destruct (get_value_of_agent_in_alloc (map_good_to_value a) m) as [v|e];
      cbn [bind]; [|reflexivity].
    destruct (py_add acc v) as [acc'|e]; cbn [bind]; [|reflexivity].
    pose proof (IH (ags_pre ++ [a]) (maps_pre ++ [m]) maps_suf acc') as IH'.
    rewrite <- !app_assoc, length_app in IH'. cbn [app List.length] in IH'.
    rewrite Nat.add_1_r, Hpre in IH'. apply IH'.
    + rewrite length_app. simpl. lia.
    + simpl in Hsuf. lia.
Qed.

Lemma value_of_fractional_allocation_valid
  (ags : list AdditiveAgent) (maps : list FractionMap) :
  List.length ags = List.length maps ->
  value_of_fractional_allocation (mkFractionalAllocation (Some ags) (Some maps))
  = total_from (combine ags maps) (PyInt 0).
Proof.
  intro Hlen.
  exact (social_loop_shift ags [] [] maps (PyInt 0) eq_refl Hlen).
Qed.

(** ** Allocations of [int]s *)














Lemma values_int_scale_share_length (j : nat) (c : Z) (m : dict Z) :
  List.length (int_scale_share j c m) = List.length m.
Proof.
  revert j. induction m as [|[k v] m IH]; intros [|j]; simpl; auto.
Qed.











(** ** The items an agent holds *)

Lemma combine_keys_values (m : FractionMap) : combine (keys m) (values m) = m.
Proof.
  induction m as [|[k v] m IH]; [reflexivity|].
  unfold keys, values in *. simpl. now rewrite IH.
Qed.

Lemma get_items_filter (m : FractionMap) :
  get_items_of_agent_in_alloc m
  = map fst (filter (fun kv => gt_zero (snd kv)) m).
Proof. unfold get_items_of_agent_in_alloc. now rewrite combine_keys_values. Qed.

Lemma NoDup_map_fst_filter {A B : Type} (f : A * B -> bool) (l : list (A * B)) :
  NoDup (map fst l) -> NoDup (map fst (filter f l)).
Proof.
  induction l as [|x l IH]; intro H; [constructor|].
  inversion H as [|? ? Hnotin Hnd]; subst. simpl.
  destruct (f x); [|now apply IH].
  simpl. constructor; [|now apply IH].
  intro Hin. apply Hnotin. apply in_map_iff in Hin.
  destruct Hin as (y & Hy & Hyin). apply filter_In in Hyin.
  apply in_map_iff. exists y. tauto.
Qed.

(** X6.  The items an agent holds are the keys of its map whose share is
    strictly positive, in the order of the map: the list is the one left
    when the other entries are struck out, it names an item exactly when
    some entry of the map gives that item a positive share, and it names
    no item twice when the map has no key twice (as a [dict] has). *)
Theorem get_items_of_agent_in_alloc_positive (m : FractionMap) :
  (forall x, In x (get_items_of_agent_in_alloc m)
             <-> exists v, In (x, v) m /\ gt_zero v = true)
  /\ (NoDup (keys m) -> NoDup (get_items_of_agent_in_alloc m))
  /\ (forall pre k v suf,
         m = pre ++ (k, v) :: suf ->
         get_items_of_agent_in_alloc m
         = get_items_of_agent_in_alloc pre
           ++ (if gt_zero v then [k] else [])
           ++ get_items_of_agent_in_alloc suf).
Proof.
  split; [|split].
  - intro x. rewrite get_items_filter, in_map_iff. split.
    + intros ([k v] & Hk & Hin). simpl in Hk. subst k.
      apply filter_In in Hin. destruct Hin as [Hin Hpos].
      exists v. split; assumption.
    + intros (v & Hin & Hpos). exists (x, v). split; [reflexivity|].
      apply filter_In. split; assumption.
  - rewrite get_items_filter. apply NoDup_map_fst_filter.
  - intros pre k v suf ->. rewrite !get_items_filter, filter_app, map_app.
    simpl. now destruct (gt_zero v).
Qed.

Lemma get_items_of_agent_in_alloc_positive_witness :
  NoDup (get_items_of_agent_in_alloc (fm (PyFloat 0.4) (PyInt 0) (PyFloat 0.5)))
  /\ get_items_of_agent_in_alloc (fm (PyFloat 0.4) (PyInt 0) (PyFloat 0.5)) = ["x"; "z"]%string.
Proof.
  destruct (get_items_of_agent_in_alloc_positive (fm (PyFloat 0.4) (PyInt 0) (PyFloat 0.5)))
    as (_ & Hnodup & Hsplit).
  split.
  - apply Hnodup. repeat constructor; simpl; intuition discriminate.
  - rewrite (Hsplit [("x"%string, PyFloat 0.4)] "y"%string (PyInt 0)
                    [("z"%string, PyFloat 0.5)] eq_refl).
    vm_compute. reflexivity.
Defined.


(** ** The outcomes of the validator *)

(** Sums and shares for which no addition raises: when [P] holds of the
    running sums and [Q] of the shares, and a sum with [P] plus a share
    with [Q] is again a sum with [P]. *)
Lemma row_step_closed (P Q : number -> Prop) (vs sums : list number) :
  (forall s v, P s -> Q v -> exists a, py_add s v = Ok a /\ P a) ->
  Forall Q vs -> Forall P sums ->
  (forall e, row_step vs sums <> Throw e)
  /\ (forall r, row_step vs sums = Continue r -> Forall P r).
Proof.
  intro Hadd. revert sums. induction vs as [|v vs IH]; intros sums HQ HP.
  - split; [destruct sums; discriminate|].
    intros r Hr. destruct sums; injection Hr as <-; assumption.
  - destruct sums as [|s rest].
    + split; [discriminate|]. intros r Hr. injection Hr as <-. constructor.
    + inversion HQ as [|? ? HQv HQvs]; subst.
      inversion HP as [|? ? HPs HPrest]; subst.
      destruct (Hadd s v HPs HQv) as (a & Ha & HPa).
      destruct (IH rest HQvs HPrest) as [Hthrow Hcont].
      cbn [row_step]. rewrite Ha.
      destruct (gt_one v || lt_zero v); [split; discriminate|].
      destruct (row_step vs rest) as [r'|b out|e] eqn:Hr.
      * split; [discriminate|]. intros r H. injection H as <-.
        constructor; [assumption|now apply Hcont].
      * split; discriminate.
      * exfalso. now apply (Hthrow e).
Qed.

Lemma outer_loop_closed (P Q : number -> Prop)
  (maps : list FractionMap) (sums : list number) :
  (forall s v, P s -> Q v -> exists a, py_add s v = Ok a /\ P a) ->
  (forall m v, In m maps -> In v (values m) -> Q v) ->
  Forall P sums ->
  forall e, outer_loop maps sums <> Throw e.
Proof.
  intro Hadd. revert sums. induction maps as [|m maps IH]; intros sums HQ HP e;
    [discriminate|].
  rewrite outer_loop_cons.
  destruct (row_step_closed P Q (values m) sums Hadd) as [Hthrow Hcont];
    [apply Forall_forall; intros v Hv; apply (HQ m v); [now left|assumption]
    |assumption|].
  destruct (row_step (values m) sums) as [r|b out|e'] eqn:Hr.
  - apply IH; [|now apply Hcont].
    intros m' v Hm' Hv. apply (HQ m' v); [now right|assumption].
  - discriminate.
  - exfalso. now apply (Hthrow e').
Qed.

Lemma py_add_floats (s v : number) :
  (s = PyInt 0 \/ exists f, s = PyFloat f) ->
  (exists f, v = PyFloat f) ->
  exists a, py_add s v = Ok a /\ (a = PyInt 0 \/ exists f, a = PyFloat f).
Proof.
  intros [->|(f & ->)] (g & ->).
  - unfold py_add. rewrite float_of_int_zero. cbn [bind].
    eexists. split; [reflexivity|]. right. now eexists.
  - eexists. split; [reflexivity|]. right. now eexists.
Qed.

Lemma py_add_ints (s v : number) :
  (exists z, s = PyInt z) -> (exists z, v = PyInt z) ->
  exists a, py_add s v = Ok a /\ exists z, a = PyInt z.
Proof.
  intros (x & ->) (y & ->). eexists. split; [reflexivity|]. now eexists.
Qed.

(** X1.  [check_input] raises [IndexError] exactly on the empty list.  On
    any other list it returns with one of four outcomes, [True] and
    nothing printed or [False] and exactly one of the three diagnostics
    printed, or raises [OverflowError]; and it does not raise when the
    shares are all [float]s or all [int]s. *)
Theorem check_input_outcomes (maps : list FractionMap) :
  ((maps = [] /\ check_input maps = Raise IndexError)
   \/ (maps <> []
       /\ (check_input maps = Ok (true, [])
           \/ check_input maps = Ok (false, [msg_out_of_range_share])
           \/ check_input maps = Ok (false, [msg_over_allocated_item])
           \/ check_input maps = Ok (false, [msg_unclaimed_item])
           \/ check_input maps = Raise OverflowError)))
  /\ (maps <> [] -> all_floats maps \/ all_ints maps ->
      forall e, check_input maps <> Raise e).
Proof.
  split.
  - destruct maps as [|first rest]; [left; now split|].
    right. split; [discriminate|]. rewrite check_input_cons.
    destruct (outer_loop (first :: rest) (repeat (PyInt 0) (List.length first)))
      as [r|b out|e] eqn:Hloop.
    + destruct (sum_loop_outcomes r) as [H|[H|H]]; rewrite H; auto.
    + destruct (outer_loop_Return _ _ _ _ Hloop) as (-> & -> & _). auto.
    + rewrite (outer_loop_Throw _ _ _ Hloop). auto 6.
  - intros Hne Hkind e. destruct maps as [|first rest]; [congruence|].
    rewrite check_input_cons.
    destruct (outer_loop (first :: rest) (repeat (PyInt 0) (List.length first)))
      as [r|b out|e'] eqn:Hloop; try discriminate.
    exfalso. destruct Hkind as [Hfloats|Hints].
    + apply (outer_loop_closed _ _ (first :: rest)
                               (repeat (PyInt 0) (List.length first))
                               py_add_floats Hfloats) with (e := e');
        [|assumption].
      apply Forall_forall. intros s Hs. apply repeat_spec in Hs. now left.
    + apply (outer_loop_closed _ _ (first :: rest)
                               (repeat (PyInt 0) (List.length first))
                               py_add_ints Hints) with (e := e');
        [|assumption].
      apply Forall_forall. intros s Hs. apply repeat_spec in Hs. now exists 0%Z.
Qed.

Lemma check_input_outcomes_witness :
  check_input doctest_halves = Ok (true, [])
  /\ check_input doctest_halves <> Raise OverflowError.
Proof.
  split; [vm_compute; reflexivity|].
  apply (proj2 (check_input_outcomes doctest_halves)).
  - discriminate.
  - left. intros m v Hm Hv. in_cases; eexists; reflexivity.
Defined.

(** ** Objects the constructor returns *)

Lemma check_input_true_silent (maps : list FractionMap) (out : list string) :
  check_input maps = Ok (true, out) -> out = [].
Proof.
  destruct maps as [|first rest]; [discriminate|].
  rewrite check_input_cons.
  destruct (outer_loop (first :: rest) (repeat (PyInt 0) (List.length first)))
    as [r|b o|e] eqn:Hloop; intro H; try discriminate.
  - injection H as H. destruct (sum_loop_outcomes r) as [H'|[H'|H']];
      rewrite H' in H; congruence.
  - destruct (outer_loop_Return _ _ _ _ Hloop) as (-> & _ & _). discriminate.
Qed.

Lemma check_input_false_one_line (maps : list FractionMap) (out : list string) :
  check_input maps = Ok (false, out) -> exists diagnostic, out = [diagnostic].
Proof.
  destruct maps as [|first rest]; [discriminate|].
  rewrite check_input_cons.
  destruct (outer_loop (first :: rest) (repeat (PyInt 0) (List.length first)))
    as [r|b o|e] eqn:Hloop; intro H; try discriminate.
  - injection H as H. destruct (sum_loop_outcomes r) as [H'|[H'|H']];
      rewrite H' in H;
      first [discriminate H | (injection H as <-; now eexists)].
  - destruct (outer_loop_Return _ _ _ _ Hloop) as (_ & -> & _).
    injection H as _ <-. now eexists.
Qed.

Lemma check_input_raises (maps : list FractionMap) (e : exn) :
  check_input maps = Raise e ->
  (maps = [] /\ e = IndexError) \/ (maps <> [] /\ e = OverflowError).
Proof.
  destruct maps as [|first rest]; [intro H; injection H as <-; auto|].
  rewrite check_input_cons.
  destruct (outer_loop (first :: rest) (repeat (PyInt 0) (List.length first)))
    as [r|b o|e'] eqn:Hloop; intro H; try discriminate.
  injection H as <-. right. split; [discriminate|].
  now apply (outer_loop_Throw _ _ _ Hloop).
Qed.

(** X10.  The constructor raises [IndexError] exactly when there are no
    agents and no maps, and [OverflowError] when the counts agree and
    [check_input] raises it.  Otherwise it returns an object which is
    either the sentinel, with at least one line printed, or has both
    fields set to the arguments, with nothing printed; the latter exactly
    when the counts agree and [check_input] returns [True].  No object has
    one field set and the other [None]. *)
Theorem FractionalAllocation_init_outcomes
  (ags : list AdditiveAgent) (maps : list FractionMap) :
  (ags = [] /\ maps = []
   /\ FractionalAllocation_init ags maps = Raise IndexError)
  \/ (List.length ags = List.length maps /\ maps <> []
      /\ check_input maps = Raise OverflowError
      /\ FractionalAllocation_init ags maps = Raise OverflowError)
  \/ (exists out,
         FractionalAllocation_init ags maps = Ok (sentinel, out)
         /\ out <> []
         /\ (List.length ags <> List.length maps
             \/ exists diagnostic, check_input maps = Ok (false, [diagnostic])))
  \/ (FractionalAllocation_init ags maps
      = Ok (mkFractionalAllocation (Some ags) (Some maps), [])
      /\ List.length ags = List.length maps
      /\ check_input maps = Ok (true, [])).
Proof.
  unfold FractionalAllocation_init.
  destruct (List.length ags =? List.length maps)%nat eqn:Hlen; cbn [negb].
  - apply Nat.eqb_eq in Hlen.
    destruct (check_input maps) as [[[|] out]|e] eqn:Hcheck; cbn [bind].
    + rewrite (check_input_true_silent _ _ Hcheck) in *. auto 6.
    + destruct (check_input_false_one_line _ _ Hcheck) as (d & ->).
      right. right. left. eexists. split; [reflexivity|].
      split; [discriminate|]. right. now exists d.
    + destruct (check_input_raises _ _ Hcheck) as [[-> ->]|[Hne ->]].
      * left. destruct ags; [auto|discriminate].
      * right. left. auto.
  - apply Nat.eqb_neq in Hlen. right. right. left.
    exists [msg_agent_count_mismatch].
    split; [reflexivity|]. split; [discriminate|]. now left.
Qed.



Lemma FractionalAllocation_repr_loop_shift
  (str_of_number : number -> string)
  (ags_suf ags_pre : list AdditiveAgent) (maps_pre maps_suf : list FractionMap)
  (acc : string) :
  List.length ags_pre = List.length maps_pre ->
  List.length ags_suf = List.length maps_suf ->
  repr_loop str_of_number
    (mkFractionalAllocation (Some (ags_pre ++ ags_suf)) (Some (maps_pre ++ maps_suf)))
    (combine (seq (List.length ags_pre) (List.length ags_suf)) ags_suf) acc
  = fractional_lines str_of_number (combine ags_suf maps_suf) acc.
Proof.
  revert ags_pre maps_pre maps_suf acc.
  induction ags_suf as [|a ags_suf IH]; intros ags_pre maps_pre maps_suf acc Hpre Hsuf.
  - reflexivity.
  - destruct maps_suf as [|m maps_suf]; [discriminate|].
    cbn [List.length seq combine repr_loop fractional_lines
         agents map_item_to_fraction].
    rewrite Hpre, subscript_app. rewrite <- Hpre, subscript_app. cbn [bind].
    destruct (get_value_of_agent_in_alloc (map_good_to_value a) m) as [v|e];
      cbn [bind]; [|reflexivity].
    pose proof (IH (ags_pre ++ [a]) (maps_pre ++ [m]) maps_suf) as IH'.
    rewrite <- !app_assoc, length_app in IH'. cbn [app List.length] in IH'.
    rewrite Nat.add_1_r in IH'. unfold fractional_line.
    apply IH'.
    + rewrite !length_app. simpl. lia.
    + simpl in Hsuf. lia.
Qed.

(** X11.  On every object the constructor returns: when nothing was
    printed, the rendering is the agents' lines one after the other, in
    the order of the agents, each with the items of positive share and the
    agent's value, and the valuation is the agents' values added in that
    order, each ended by the first value Python's arithmetic cannot
    compute; otherwise the rendering is the empty string and the
    valuation raises [TypeError]. *)
Theorem FractionalAllocation_methods_after_init
  (str_of_number : number -> string)
  (ags : list AdditiveAgent) (maps : list FractionMap)
  (A : FractionalAllocation) (out : list string) :
  FractionalAllocation_init ags maps = Ok (A, out) ->
  (out = []
   /\ FractionalAllocation_repr str_of_number A
      = fractional_lines str_of_number (combine ags maps) ""%string
   /\ value_of_fractional_allocation A = total_from (combine ags maps) (PyInt 0))
  \/ (out <> []
      /\ FractionalAllocation_repr str_of_number A = Ok ""%string
      /\ value_of_fractional_allocation A = Raise TypeError).
Proof.
  unfold FractionalAllocation_init.
  destruct (List.length ags =? List.length maps)%nat eqn:Hlen; cbn [negb].
  - apply Nat.eqb_eq in Hlen.
    destruct (check_input maps) as [[[|] o]|e] eqn:Hcheck; cbn [bind];
      intro Hinit; [| |discriminate].
    + injection Hinit as <- <-. left.
      split; [exact (check_input_true_silent _ _ Hcheck)|]. split.
      * unfold FractionalAllocation_repr, enumerate.
        cbn [agents map_item_to_fraction].
        exact (FractionalAllocation_repr_loop_shift
                 str_of_number ags [] [] maps ""%string eq_refl Hlen).
      * now apply value_of_fractional_allocation_valid.
    + injection Hinit as <- <-. right.
      split; [destruct o; discriminate|]. split; reflexivity.
  - intro Hinit. injection Hinit as <- <-. right.
    split; [discriminate|]. split; reflexivity.
Qed.

Lemma FractionalAllocation_methods_after_init_witness :
  FractionalAllocation_repr (fun _ => "v"%string)
    (mkFractionalAllocation (Some [agent1; agent2]) (Some doctest_mixed))
  = Ok ("agent1's bundle: {x,z},  value: v" ++ newline
        ++ "agent2's bundle: {x,y,z},  value: v" ++ newline)%string.
Proof.
  destruct (FractionalAllocation_methods_after_init
              (fun _ => "v"%string) [agent1; agent2] doctest_mixed
              (mkFractionalAllocation (Some [agent1; agent2]) (Some doctest_mixed))
              [])
    as [(_ & H & _)|(Hne & _)].
  - unfold FractionalAllocation_init. cbn [List.length doctest_mixed Nat.eqb negb].
    fold doctest_mixed. rewrite doctest_mixed_valid. reflexivity.
  - rewrite H. vm_compute. reflexivity.
  - congruence.
Defined.

(** ** Missing entries *)

Lemma fit_to_length (n : nat) (m : FractionMap) : List.length (fit_to n m) = n.
Proof.
  unfold fit_to. rewrite length_app, length_firstn, repeat_length. lia.
Qed.

Lemma fit_to_first (m : FractionMap) : fit_to (List.length m) m = m.
Proof.
  unfold fit_to. rewrite firstn_all, Nat.sub_diag. apply app_nil_r.
Qed.

Lemma fit_to_firstn (n : nat) (m : FractionMap) :
  fit_to n (firstn n m) = fit_to n m.
Proof.
  unfold fit_to. rewrite firstn_firstn, Nat.min_id, length_firstn.
  f_equal. f_equal. lia.
Qed.

Lemma values_fit_to (n : nat) (m : FractionMap) :
  (List.length m <= n)%nat ->
  values (fit_to n m)
  = values m ++ repeat (PyInt 0) (n - List.length (values m)).
Proof.
  intro Hlen. unfold fit_to, values.
  rewrite map_app, map_repeat, firstn_all2, length_map by assumption.
  reflexivity.
Qed.

Lemma Forall2_same_number_refl (l : list number) : Forall2 same_number l l.
Proof. induction l; constructor; [apply same_number_refl|assumption]. Qed.

Lemma row_step_fill (sums sums' vs : list number) :
  Forall2 same_number sums sums' ->
  (List.length vs <= List.length sums)%nat ->
  same_flow (row_step vs sums)
            (row_step (vs ++ repeat (PyInt 0) (List.length sums - List.length vs))
                      sums').
Proof.
  intro Hsame. revert vs.
  induction Hsame as [|s s' rest rest' Hs Hrest IH]; intros vs Hlen.
  - destruct vs; [|simpl in Hlen; lia]. simpl. constructor.
  - destruct vs as [|v vs].
    + cbn [List.length app Nat.sub repeat row_step].
      destruct (py_add_zero s') as (s'' & Hadd & Hs'').
      rewrite Hadd. cbn [gt_one lt_zero orb].
      change ((1 <? 0)%Z || (0 <? 0)%Z) with false. cbv iota.
      specialize (IH [] (Nat.le_0_l _)).
      cbn [List.length app] in IH. rewrite Nat.sub_0_r in IH.
      assert (Hnil : row_step [] rest = Continue rest) by (destruct rest; reflexivity).
      rewrite Hnil in IH.
      destruct (row_step (repeat (PyInt 0) (List.length rest)) rest')
        as [r'| |]; cbn [same_flow] in IH; try contradiction.
      cbn [same_flow]. constructor; [|assumption].
      now apply (same_number_trans s s' s'').
    + cbn [List.length app Nat.sub row_step].
      pose proof (py_add_same s s' v Hs) as Hadd.
      destruct (py_add s v) as [a|e], (py_add s' v) as [a'|e'];
        cbn [same_result] in Hadd; try contradiction; [|exact Hadd].
      destruct (gt_one v || lt_zero v); [split; reflexivity|].
      specialize (IH vs). simpl in Hlen.
      assert (Hlen' : (List.length vs <= List.length rest)%nat) by lia.
      specialize (IH Hlen').
      destruct (row_step vs rest) as [r|b out|e],
               (row_step (vs ++ repeat (PyInt 0) (List.length rest - List.length vs))
                         rest') as [r'|b' out'|e'];
        cbn [same_flow] in IH |- *; try contradiction; try assumption.
      constructor; assumption.
Qed.

Lemma outer_loop_fill (maps : list FractionMap) (sums sums' : list number) :
  Forall2 same_number sums sums' ->
  (forall m, In m maps -> (List.length m <= List.length sums)%nat) ->
  same_flow (outer_loop maps sums)
            (outer_loop (map (fit_to (List.length sums)) maps) sums').
Proof.
  revert sums sums'. induction maps as [|m maps IH]; intros sums sums' Hsame Hlen.
  - exact Hsame.
  - cbn [map]. rewrite !outer_loop_cons.
    rewrite values_fit_to by (apply Hlen; now left).
    assert (Hm : (List.length (values m) <= List.length sums)%nat)
      by (unfold values; rewrite length_map; apply Hlen; now left).
    pose proof (row_step_fill sums sums' (values m) Hsame Hm) as Hrow.
    destruct (row_step (values m) sums) as [r|b out|e] eqn:Hr,
             (row_step (values m ++ repeat (PyInt 0)
                                          (List.length sums - List.length (values m)))
                       sums') as [r'|b' out'|e'];
      cbn [same_flow] in Hrow; try contradiction.
    + rewrite <- (row_step_length _ _ _ Hr). apply IH; [assumption|].
      intros m' Hm'. rewrite (row_step_length _ _ _ Hr). apply Hlen. now right.
    + destruct Hrow as [-> ->]. split; reflexivity.
    + exact Hrow.
Qed.

Lemma sum_loop_same (r r' : list number) :
  Forall2 same_number r r' -> sum_loop r = sum_loop r'.
Proof.
  induction 1 as [|s s' r r' Hs _ IH]; [reflexivity|].
  cbn [sum_loop]. rewrite (gt_one_same _ _ Hs), (eq_zero_same _ _ Hs), IH.
  reflexivity.
Qed.

(** The case of maps no longer than the first one. *)
Lemma check_input_fill (maps : list FractionMap) :
  (forall m, In m maps -> (List.length m <= item_count maps)%nat) ->
  check_input maps = check_input (map (fit_to (item_count maps)) maps).
Proof.
  intro Hlen. destruct maps as [|first rest]; [reflexivity|].
  unfold item_count in *. cbn [hd] in *. cbn [map].
  rewrite !check_input_cons. rewrite fit_to_length.
  pose proof (outer_loop_fill (first :: rest)
                              (repeat (PyInt 0) (List.length first))
                              (repeat (PyInt 0) (List.length first))
                              (Forall2_same_number_refl _)) as Hflow.
  rewrite repeat_length in Hflow. specialize (Hflow Hlen). cbn [map] in Hflow.
  destruct (outer_loop (first :: rest) (repeat (PyInt 0) (List.length first)))
    as [r|b out|e],
    (outer_loop (fit_to (List.length first) first
                 :: map (fit_to (List.length first)) rest)
                (repeat (PyInt 0) (List.length first))) as [r'|b' out'|e'];
    cbn [same_flow] in Hflow; try contradiction.
  - now rewrite (sum_loop_same r r' Hflow).
  - now destruct Hflow as [-> ->].
  - now rewrite Hflow.
Qed.

(** X4.  [check_input] reads the maps as a matrix with one column per entry of
    the first map: it gives the same result when every map is cut to that
    number of entries or filled up to it with shares 0.  So a map with
    fewer entries than the first one counts as holding nothing of the
    missing positions, and no error is reported for it. *)
Theorem check_input_reads_a_matrix (maps : list FractionMap) :
  check_input maps = check_input (map (fit_to (item_count maps)) maps)
  /\ forall m, In m (map (fit_to (item_count maps)) maps) ->
               List.length m = item_count maps.
Proof.
  split.
  - destruct maps as [|first rest]; [reflexivity|].
    set (maps := first :: rest). set (n := item_count maps).
    assert (Hcut : check_input maps = check_input (map (firstn n) maps)).
    { unfold maps, n, item_count. cbn [hd map]. rewrite !check_input_cons.
      rewrite (outer_loop_firstn (first :: rest)), repeat_length.
      cbn [map]. rewrite !firstn_all. reflexivity. }
    assert (Hcount : item_count (map (firstn n) maps) = n).
    { unfold item_count at 1. cbn [maps map hd]. unfold n, item_count, maps.
      cbn [hd]. now rewrite firstn_all. }
    rewrite Hcut, check_input_fill.
    + rewrite Hcount, map_map. f_equal. apply map_ext. intro m.
      apply fit_to_firstn.
    + intros m Hm. rewrite Hcount. apply in_map_iff in Hm.
      destruct Hm as (m0 & <- & _). rewrite length_firstn. lia.
  - intros m Hm. apply in_map_iff in Hm. destruct Hm as (m0 & <- & _).
    apply fit_to_length.
Qed.

(** ** The order of strings *)

Lemma ascii_compare_refl (a : ascii) : Ascii.compare a a = Eq.
Proof. unfold Ascii.compare. apply N.compare_refl. Qed.

Lemma ascii_compare_lt_trans (a b c : ascii) :
  Ascii.compare a b = Lt -> Ascii.compare b c = Lt -> Ascii.compare a c = Lt.
Proof.
  unfold Ascii.compare. rewrite !N.compare_lt_iff. apply N.lt_trans.
Qed.

Lemma string_compare_lt_trans (s1 s2 s3 : string) :
  String.compare s1 s2 = Lt -> String.compare s2 s3 = Lt ->
  String.compare s1 s3 = Lt.
Proof.
  revert s2 s3. induction s1 as [|a s1 IH]; intros [|b s2] [|c s3]; simpl;
    try congruence.
  destruct (Ascii.compare a b) eqn:Hab; try discriminate;
    destruct (Ascii.compare b c) eqn:Hbc; try discriminate; intros H12 H23.
  - apply Ascii.compare_eq_iff in Hab, Hbc. subst.
    rewrite ascii_compare_refl. now apply (IH s2).
  - apply Ascii.compare_eq_iff in Hab. subst. now rewrite Hbc.
  - apply Ascii.compare_eq_iff in Hbc. subst. now rewrite Hab.
  - now rewrite (ascii_compare_lt_trans a b c).
Qed.

Lemma string_leb_cases (s1 s2 : string) :
  String.leb s1 s2 = true <-> String.compare s1 s2 = Lt \/ s1 = s2.
Proof.
  unfold String.leb. split.
  - destruct (String.compare s1 s2) eqn:H; intro Hle; try discriminate.
    + right. now apply String.compare_eq_iff.
    + now left.
  - intros [H| ->].
    + now rewrite H.
    + destruct (String.compare s2 s2) eqn:H; try reflexivity.
      pose proof (String.compare_antisym s2 s2) as Ha.
      rewrite H in Ha. discriminate.
Qed.

Lemma string_leb_trans : Transitive (fun s1 s2 => is_true (String.leb s1 s2)).
Proof.
  intros s1 s2 s3 H12 H23. unfold is_true in *.
  apply string_leb_cases in H12, H23. apply string_leb_cases.
  destruct H12 as [H12| ->]; [|assumption].
  destruct H23 as [H23| <-]; [|now left].
  left. now apply (string_compare_lt_trans s1 s2 s3).
Qed.

Lemma string_ltb_leb_neq (s1 s2 : string) :
  String.leb s1 s2 = true -> s1 <> s2 -> String.ltb s1 s2 = true.
Proof.
  intros Hle Hne. apply string_leb_cases in Hle.
  destruct Hle as [Hlt|Heq]; [|contradiction].
  unfold String.ltb. now rewrite Hlt.
Qed.

(** ** Sorting *)

Lemma sorted_strongly (bundle : list string) :
  StronglySorted (fun s1 s2 => is_true (String.leb s1 s2)) (sorted bundle).
Proof. apply StringSort.StronglySorted_sort. exact string_leb_trans. Qed.

Lemma sorted_permutation (bundle : list string) :
  Permutation bundle (sorted bundle).
Proof. apply StringSort.Permuted_sort. Qed.

(** Two sorted enumerations of the same items are the same list. *)
Lemma strongly_sorted_unique (l1 l2 : list string) :
  StronglySorted (fun s1 s2 => is_true (String.leb s1 s2)) l1 ->
  StronglySorted (fun s1 s2 => is_true (String.leb s1 s2)) l2 ->
  Permutation l1 l2 ->
  l1 = l2.
Proof.
  revert l2. induction l1 as [|x l1 IH]; intros l2 H1 H2 Hperm.
  - now apply Permutation_nil in Hperm.
  - destruct l2 as [|y l2];
      [apply Permutation_sym, Permutation_nil in Hperm; discriminate|].
    inversion H1 as [|? ? Hs1 Hall1]; subst.
    inversion H2 as [|? ? Hs2 Hall2]; subst.
    assert (Hxy : x = y).
    { assert (Hx : In x (y :: l2))
        by (apply (Permutation_in _ Hperm); now left).
      assert (Hy : In y (x :: l1))
        by (apply (Permutation_in _ (Permutation_sym Hperm)); now left).
      destruct Hx as [Hx|Hx]; [congruence|].
      destruct Hy as [Hy|Hy]; [congruence|].
      rewrite Forall_forall in Hall1, Hall2.
      apply String.leb_antisym; [apply Hall1|apply Hall2]; assumption. }
    subst y. f_equal. apply IH; try assumption.
    now apply Permutation_cons_inv in Hperm.
Qed.

Lemma strongly_sorted_strict (l : list string) :
  NoDup l ->
  StronglySorted (fun s1 s2 => is_true (String.leb s1 s2)) l ->
  StronglySorted (fun s1 s2 => is_true (String.ltb s1 s2)) l.
Proof.
  induction l as [|x l IH]; intros Hnd Hs; [constructor|].
  inversion Hnd as [|? ? Hnotin Hnd']; subst.
  inversion Hs as [|? ? Hs' Hall]; subst.
  constructor; [now apply IH|].
  rewrite Forall_forall in *. intros y Hy.
  apply string_ltb_leb_neq; [now apply Hall|]. intros ->. contradiction.
Qed.

(** C8.  The formatter gives the same string for any two enumerations of
    the same bundle.  For a bundle (no item twice) the string is "{", the
    items joined by ",", "}", where the items are those of the bundle, each
    once, in strictly ascending order.  The empty bundle gives "{}". *)
Theorem stringify_bundle_canonical :
  (forall b1 b2, Permutation b1 b2 -> stringify_bundle b1 = stringify_bundle b2)
  /\ (forall b, NoDup b ->
        exists items,
          stringify_bundle b = ("{" ++ String.concat "," items ++ "}")%string
          /\ StronglySorted (fun s1 s2 => is_true (String.ltb s1 s2)) items
          /\ NoDup items
          /\ forall x, In x items <-> In x b)
  /\ stringify_bundle [] = "{}"%string.
Proof.
  split; [|split].
  - intros b1 b2 Hperm. unfold stringify_bundle.
    replace (sorted b2) with (sorted b1); [reflexivity|].
    apply strongly_sorted_unique; try apply sorted_strongly.
    eapply Permutation_trans; [apply Permutation_sym, sorted_permutation|].
    eapply Permutation_trans; [exact Hperm|apply sorted_permutation].
  - intros b Hnd. exists (sorted b).
    assert (Hnd' : NoDup (sorted b))
      by (apply (Permutation_NoDup (sorted_permutation b) Hnd)).
    split; [reflexivity|]. split.
    + apply strongly_sorted_strict; [assumption|apply sorted_strongly].
    + split; [assumption|]. intro x. split; intro Hx.
      * apply (Permutation_in _ (Permutation_sym (sorted_permutation b)) Hx).
      * apply (Permutation_in _ (sorted_permutation b) Hx).
  - reflexivity.
Qed.

Lemma stringify_bundle_canonical_witness :
  stringify_bundle ["y"; "x"]%string = stringify_bundle ["x"; "y"]%string
  /\ (exists items,
        stringify_bundle ["y"; "x"]%string
        = ("{" ++ String.concat "," items ++ "}")%string
        /\ StronglySorted (fun s1 s2 => is_true (String.ltb s1 s2)) items
        /\ NoDup items
        /\ forall x, In x items <-> In x ["y"; "x"]%string)
  /\ stringify_bundle ["y"; "x"]%string = "{x,y}"%string.
Proof.
  destruct stringify_bundle_canonical as (Hperm & Hset & _).
  split; [apply Hperm, perm_swap|]. split; [|reflexivity].
  apply Hset. constructor.
  - intros [H|[]]. discriminate.
  - constructor; [intros []|constructor].
Defined.

(** ** Python's list indices *)

Lemma py_index_in_range (n : nat) (i : Z) :
  (- Z.of_nat n <= i < Z.of_nat n)%Z ->
  exists j, py_index n i = Ok j /\ (j < n)%nat
            /\ Z.of_nat j = (if (0 <=? i)%Z then i else Z.of_nat n + i)%Z.
Proof.
  intro Hi. unfold py_index.
  destruct (0 <=? i)%Z eqn:Hsign.
  - apply Z.leb_le in Hsign.
    destruct (i <? Z.of_nat n)%Z eqn:Hlt; [|apply Z.ltb_ge in Hlt; lia].
    exists (Z.to_nat i). split; [reflexivity|]. split; lia.
  - apply Z.leb_gt in Hsign.
    destruct (- Z.of_nat n <=? i)%Z eqn:Hge; [|apply Z.leb_gt in Hge; lia].
    exists (Z.to_nat (Z.of_nat n + i)). split; [reflexivity|]. split; lia.
Qed.

Lemma py_index_Ok (n : nat) (i : Z) (j : nat) :
  py_index n i = Ok j -> (j < n)%nat.
Proof.
  unfold py_index.
  destruct (0 <=? i)%Z eqn:Hsign.
  - apply Z.leb_le in Hsign.
    destruct (i <? Z.of_nat n)%Z eqn:Hlt; [|discriminate].
    apply Z.ltb_lt in Hlt. intro H. injection H as <-. lia.
  - apply Z.leb_gt in Hsign.
    destruct (- Z.of_nat n <=? i)%Z eqn:Hge; [|discriminate].
    apply Z.leb_le in Hge. intro H. injection H as <-. lia.
Qed.

Lemma replace_at_length {A : Type} (j : nat) (a : A) (l : list A) :
  List.length (replace_at j a l) = List.length l.
Proof. revert j. induction l as [|x l IH]; intros [|j]; simpl; auto. Qed.

Lemma nth_error_replace_at_same {A : Type} (j : nat) (a : A) (l : list A) :
  (j < List.length l)%nat -> nth_error (replace_at j a l) j = Some a.
Proof.
  revert j. induction l as [|x l IH]; intros [|j] Hj; simpl in *; try lia.
  - reflexivity.
  - apply IH. lia.
Qed.

Lemma nth_error_replace_at_other {A : Type} (j k : nat) (a : A) (l : list A) :
  k <> j -> nth_error (replace_at j a l) k = nth_error l k.
Proof.
  revert j k. induction l as [|x l IH]; intros [|j] [|k] Hkj; simpl;
    try reflexivity; try congruence.
  apply IH. congruence.
Qed.

(** ** The bundles of an Allocation *)

Section AllocationBundles.

Context {Agent : Type}.

(** X12.  After [set_bundle] at an index succeeds, [get_bundle] at that index
    returns the bundle that was set; the agents and the number of bundles
    are as before, and [get_bundle] at every index that names another
    position answers as before. *)
Theorem Allocation_set_bundle_get_bundle
  (self self' : Allocation.t Agent) (agent_index : Z) (bundle : option Bundle) :
  Allocation.set_bundle self agent_index bundle = Ok self' ->
  Allocation.get_bundle self' agent_index = Ok bundle
  /\ Allocation.agents self' = Allocation.agents self
  /\ List.length (Allocation.bundles self') = List.length (Allocation.bundles self)
  /\ forall other,
       py_index (List.length (Allocation.bundles self)) other
       <> py_index (List.length (Allocation.bundles self)) agent_index ->
       Allocation.get_bundle self' other = Allocation.get_bundle self other.
Proof.
  unfold Allocation.set_bundle, Allocation.get_bundle, list_set, list_get.
  destruct (py_index (List.length (Allocation.bundles self)) agent_index)
    as [j|e] eqn:Hj; cbn [bind]; [|discriminate].
  intro H. injection H as <-. cbn [Allocation.bundles Allocation.agents].
  rewrite replace_at_length, Hj. cbn [bind].
  pose proof (py_index_Ok _ _ _ Hj) as Hlt.
  split; [now rewrite nth_error_replace_at_same|].
  split; [reflexivity|]. split; [reflexivity|].
  intros other Hother.
  destruct (py_index (List.length (Allocation.bundles self)) other)
    as [k|e] eqn:Hk; cbn [bind]; [|reflexivity].
  rewrite nth_error_replace_at_other; [reflexivity|congruence].
Qed.

End AllocationBundles.

Lemma Allocation_set_bundle_get_bundle_witness :
  exists self',
    Allocation.set_bundle (Allocation.init [agent1; agent2] None) (-1)
                          (Some ["z"%string]) = Ok self'
    /\ Allocation.get_bundle self' (-1) = Ok (Some ["z"%string])
    /\ Allocation.get_bundle self' 1 = Ok (Some ["z"%string])
    /\ Allocation.get_bundle self' 0 = Ok None.
Proof.
  eexists. split; [reflexivity|].
  split; [|split; reflexivity].
  apply (Allocation_set_bundle_get_bundle
           (Allocation.init [agent1; agent2] None)).
  reflexivity.
Defined.


(** ** The rendering of an Allocation *)


Section AllocationRendering.

Context {Agent : Type}.
Variable agent_name : Agent -> string.
Variable agent_value : Agent -> option Bundle -> result Q.
Variable str_of_number : Q -> string.

(** X14.  An [Allocation] built without bundles has one unset bundle per agent:
    [get_bundle] returns [None] at every index it accepts, and it accepts
    the indices of the agents.  With at least one agent its rendering
    raises: the exception of the first agent's [value(None)] if that
    raises, and [TypeError] from sorting [None] otherwise. *)
Theorem Allocation_init_default (ags : list Agent) :
  List.length (Allocation.get_bundles (Allocation.init ags None))
  = List.length ags
  /\ (forall agent_index,
         (- Z.of_nat (List.length ags) <= agent_index < Z.of_nat (List.length ags))%Z ->
         Allocation.get_bundle (Allocation.init ags None) agent_index = Ok None)
  /\ (forall first rest, ags = first :: rest ->
        Allocation.repr agent_name agent_value str_of_number
                        (Allocation.init ags None)
        = Raise match agent_value first None with
                | Ok _ => TypeError
                | Raise e => e
                end).
Proof.
  unfold Allocation.init, Allocation.get_bundles, Allocation.get_bundle, list_get.
  cbn [Allocation.bundles]. rewrite repeat_length. split; [reflexivity|]. split.
  - intros agent_index Hi.
    destruct (py_index_in_range _ _ Hi) as (j & Hj & Hlt & _).
    rewrite Hj. cbn [bind].
    destruct (nth_error (repeat None (List.length ags)) j) as [slot|] eqn:Hnth.
    + apply nth_error_In, repeat_spec in Hnth. now subst.
    + apply nth_error_None in Hnth. rewrite repeat_length in Hnth. lia.
  - intros first rest ->. unfold Allocation.repr, enumerate.
    cbn [Allocation.agents List.length seq combine Allocation.repr_loop].
    unfold Allocation.repr_line.
    cbn [Allocation.bundles List.length repeat subscript nth_error bind].
    destruct (agent_value first None); reflexivity.
Qed.

(** The value function answers with numbers on bundles. *)
Variable val : Agent -> Bundle -> Q.
Hypothesis agent_value_val :
  forall agent bundle, agent_value agent (Some bundle) = Ok (val agent bundle).







End AllocationRendering.

Lemma Allocation_init_default_witness :
  Allocation.get_bundle (Allocation.init [agent1; agent2] None) (-2) = Ok None
  /\ Allocation.repr name count_value (fun _ => "v"%string)
                     (Allocation.init [agent1; agent2] None)
     = Raise TypeError.
Proof.
  destruct (Allocation_init_default name count_value (fun _ => "v"%string)
                                    [agent1; agent2]) as (_ & Hget & Hrepr).
  split.
  - apply Hget. simpl. lia.
  - exact (Hrepr agent1 [agent2] eq_refl).
Defined.


(** ** The doctests of the module *)

Example doctest_check_input_halves :
  check_input doctest_halves = Ok (true, []).
Proof. vm_compute. reflexivity. Qed.

Example doctest_check_input_above_one :
  check_input [fm (PyFloat 0.5) (PyFloat 0.5) (PyFloat 1.9);
               fm (PyFloat 0.5) (PyFloat 0.5) (PyFloat 0.5)]
  = Ok (false, [msg_out_of_range_share]).
Proof. vm_compute. reflexivity. Qed.

Example doctest_check_input_below_zero :
  check_input [fm (PyFloat 0.5) (PyFloat 0.5) (PyInt 1);
               fm (PyFloat 0.5) (PyFloat 0.5) (PyFloat (-0.1))]
  = Ok (false, [msg_out_of_range_share]).
Proof. vm_compute. reflexivity. Qed.

Example doctest_check_input_over_allocated :
  check_input doctest_over_allocated = Ok (false, [msg_over_allocated_item]).
Proof. vm_compute. reflexivity. Qed.

Example doctest_check_input_unclaimed :
  check_input doctest_unclaimed = Ok (false, [msg_unclaimed_item]).
Proof. vm_compute. reflexivity. Qed.

Example doctest_get_items :
  get_items_of_agent_in_alloc (fm (PyFloat 0.4) (PyInt 0) (PyFloat 0.5))
  = ["x"; "z"]%string.
Proof. vm_compute. reflexivity. Qed.

Example doctest_get_value :
  get_value_of_agent_in_alloc (fm (PyInt 1) (PyInt 2) (PyInt 3))
                              (fm (PyFloat 0.5) (PyFloat 0.5) (PyFloat 0.5))
  = Ok (PyFloat 3.0).
Proof. vm_compute. reflexivity. Qed.

Example doctest_get_value_four_items :
  get_value_of_agent_in_alloc
    [("x", PyInt 1); ("y", PyInt 2); ("z", PyInt 3); ("p", PyInt 9)]%string
    [("x", PyFloat 0.1); ("y", PyFloat 0.5); ("z", PyFloat 0.8);
     ("p", PyFloat 0.7)]%string
  = Ok (PyFloat 9.8).
Proof. vm_compute. reflexivity. Qed.

Example doctest_value_halves :
  value_of_fractional_allocation
    (mkFractionalAllocation (Some [agent1; agent2]) (Some doctest_halves))
  = Ok (PyFloat 6.0).
Proof. vm_compute. reflexivity. Qed.

Example doctest_init_count_mismatch :
  FractionalAllocation_init [agent1; agent2]
                            [fm (PyFloat 0.4) (PyInt 0) (PyFloat 0.5)]
  = Ok (sentinel, [msg_agent_count_mismatch]).
Proof. reflexivity. Qed.

Example doctest_init_invalid :
  FractionalAllocation_init [agent1; agent2] doctest_out_of_range
  = Ok (sentinel, [msg_out_of_range_share; msg_invalid_input]).
Proof. vm_compute. reflexivity. Qed.

Example doctest_repr_mixed :
  FractionalAllocation_repr (fun _ => "v"%string)
    (mkFractionalAllocation (Some [agent1; agent2]) (Some doctest_mixed))
  = Ok ("agent1's bundle: {x,z},  value: v" ++ newline
        ++ "agent2's bundle: {x,y,z},  value: v" ++ newline)%string.
Proof. vm_compute. reflexivity. Qed.

(** ** Bundles given as lists *)

(** X16.  On any list of items, also one that names an item more than
    once (a bundle given as a string or a list), the formatter writes the
    items in ascending order and drops none: the items between the braces
    are a rearrangement of the input, every occurrence kept, and they are
    the only ascending rearrangement. *)
Theorem stringify_bundle_keeps_occurrences (bundle : list string) :
  exists items,
    stringify_bundle bundle = ("{" ++ String.concat "," items ++ "}")%string
    /\ Permutation bundle items
    /\ StronglySorted (fun s1 s2 => is_true (String.leb s1 s2)) items
    /\ forall items',
         Permutation bundle items' ->
         StronglySorted (fun s1 s2 => is_true (String.leb s1 s2)) items' ->
         items' = items.
Proof.
  exists (sorted bundle). split; [reflexivity|].
  split; [apply sorted_permutation|]. split; [apply sorted_strongly|].
  intros items' Hperm Hsorted.
  apply strongly_sorted_unique; [assumption|apply sorted_strongly|].
  eapply Permutation_trans; [apply Permutation_sym, Hperm|].
  apply sorted_permutation.
Qed.

Example stringify_bundle_repeated_item :
  stringify_bundle ["x"; "y"; "x"]%string = "{x,x,y}"%string.
Proof. reflexivity. Qed.
